(** * Art Beyond Sight backend (backend/main.py): a shallow embedding

    The handlers of the FastAPI application are embedded as functions in a
    state-and-exception monad over an explicit [World]: the MongoDB
    collection, the clock, the temp-image directory and the sources of fresh
    identifiers.  Python exceptions are values of [exn]; [try_except] is the
    [try: ... except Exception as e: ...] of the source, and [respond] and
    [respond_model] are what the HTTP front makes of a handler's outcome.
    The store keeps dates as BSON dates, to the millisecond
    ([bson_datetime]). *)

From Stdlib Require Import ZArith String Ascii List Bool Lia QArith Sorted Permutation.
From Stdlib Require Import DecimalString.
From stdpp Require Import gmap strings list.
Import ListNotations.

Local Open Scope string_scope.
Local Open Scope N_scope.

(** ** Exceptions and handler outcomes *)

(** The exception classes the handlers meet.  All of them derive from
    Python's [Exception], [HTTPException] included, so an
    [except Exception] clause catches every one of them. *)
Inductive exn : Type :=
| HTTPException (status_code : Z) (detail : string)
| UnboundLocalError (name : string)
| AttributeError (msg : string)
| IndexError (msg : string)
| ValueError (msg : string)
| BinasciiError (msg : string)
| InvalidId (oid : string)
| ServerSelectionTimeoutError
| RequestException (msg : string)
| JSONDecodeError
| ValidationError.

Inductive result (A : Type) : Type :=
| Ok (a : A)
| Raise (e : exn).
Arguments Ok {A} a.
Arguments Raise {A} e.

(** [str(e)] as used in the f-strings of the handlers.  Starlette renders an
    [HTTPException] as "<status>: <detail>". *)
Definition digit (n : N) : ascii := ascii_of_N (48 + n).

(** The [k] low decimal digits of [n], most significant first: "%0kd" for
    every [n] below [10 ^ k]. *)
Fixpoint zpad (k : nat) (n : N) : string :=
  match k with
  | O => ""
  | S k' => String (digit ((n / 10 ^ N.of_nat k') mod 10)) (zpad k' n)
  end.

Definition status_str (s : Z) : string := zpad 3 (Z.to_N s).

Definition exn_str (e : exn) : string :=
  match e with
  | HTTPException s d => status_str s +:+ ": " +:+ d
  | UnboundLocalError n =>
      "cannot access local variable '" +:+ n
      +:+ "' where it is not associated with a value"
  | AttributeError m | IndexError m | ValueError m | BinasciiError m
  | RequestException m => m
  | InvalidId o =>
      "'" +:+ o +:+ "' is not a valid ObjectId, it must be a 12-byte input or a 24-character hex string"
  | ServerSelectionTimeoutError => "No servers found yet"
  | JSONDecodeError => "Expecting value"
  | ValidationError => "validation error"
  end.

(** ** [datetime] objects

    A [datetime.datetime] holds its calendar fields; [utcnow()] and [now()]
    return naive ones (no tzinfo). *)
Record datetime : Type := mkdatetime {
  year : N; month : N; day : N;
  hour : N; minute : N; second : N; microsecond : N }.

Definition is_leap (y : N) : bool :=
  ((y mod 4 =? 0) && negb (y mod 100 =? 0)) || (y mod 400 =? 0).

Definition days_in_month (y m : N) : N :=
  if m =? 2 then (if is_leap y then 29 else 28)
  else if (m =? 4) || (m =? 6) || (m =? 9) || (m =? 11) then 30
  else 31.

(** The ranges the constructor of [datetime.datetime] enforces. *)
Definition valid_datetime (d : datetime) : bool :=
  (1 <=? year d) && (year d <=? 9999)
  && (1 <=? month d) && (month d <=? 12)
  && (1 <=? day d) && (day d <=? days_in_month (year d) (month d))
  && (hour d <? 24) && (minute d <? 60) && (second d <? 60)
  && (microsecond d <? 1000000).

(** [datetime.isoformat()] of a naive datetime:
    "%04d-%02d-%02dT%02d:%02d:%02d", followed by ".%06d" when the
    microsecond field is not zero. *)
Definition isoformat (d : datetime) : string :=
  zpad 4 (year d) +:+ "-" +:+ zpad 2 (month d) +:+ "-" +:+ zpad 2 (day d)
  +:+ "T" +:+ zpad 2 (hour d) +:+ ":" +:+ zpad 2 (minute d) +:+ ":"
  +:+ zpad 2 (second d)
  +:+ (if microsecond d =? 0 then "" else "." +:+ zpad 6 (microsecond d)).

(** Rich comparison of two naive datetimes compares their packed fields
    byte-wise, most significant first (2 bytes of year, month, day, hour,
    minute, second, 3 bytes of microsecond). *)
Definition dt_key (d : datetime) : N :=
  (((((year d * 256 + month d) * 256 + day d) * 256 + hour d) * 256
    + minute d) * 256 + second d) * 16777216 + microsecond d.

Definition dt_ltb (a b : datetime) : bool := dt_key a <? dt_key b.

(** A BSON date counts milliseconds.  When the driver encodes a datetime for
    the store the microseconds below the millisecond are dropped, and the
    truncated value is what the store keeps and what it gives back. *)
Definition bson_datetime (d : datetime) : datetime :=
  mkdatetime (year d) (month d) (day d) (hour d) (minute d) (second d)
    (microsecond d / 1000 * 1000).

(** *** An ISO-8601 reader, independent of [isoformat]

    Reads the extended calendar format YYYY-MM-DDTHH:MM:SS with an optional
    fraction of exactly six digits, and checks the ranges of the fields. *)
Definition digit_val (c : ascii) : option N :=
  let n := N_of_ascii c in
  if (48 <=? n) && (n <=? 57) then Some (n - 48) else None.

Fixpoint read_digits (k : nat) (acc : N) (s : string) : option (N * string) :=
  match k with
  | O => Some (acc, s)
  | S k' =>
      match s with
      | String c rest =>
          match digit_val c with
          | Some v => read_digits k' (acc * 10 + v) rest
          | None => None
          end
      | EmptyString => None
      end
  end.

Definition expect (c : ascii) (s : string) : option string :=
  match s with
  | String c' rest => if Ascii.eqb c c' then Some rest else None
  | EmptyString => None
  end.

Definition read_fraction (s : string) : option N :=
  match s with
  | EmptyString => Some 0
  | String c rest =>
      if Ascii.eqb c "." then
        match read_digits 6 0 rest with
        | Some (us, EmptyString) => Some us
        | _ => None
        end
      else None
  end.

Definition parse_iso8601 (s : string) : option datetime :=
  match read_digits 4 0 s with
  | Some (y, s) =>
  match expect "-" s with Some s =>
  match read_digits 2 0 s with Some (mo, s) =>
  match expect "-" s with Some s =>
  match read_digits 2 0 s with Some (d, s) =>
  match expect "T" s with Some s =>
  match read_digits 2 0 s with Some (h, s) =>
  match expect ":" s with Some s =>
  match read_digits 2 0 s with Some (mi, s) =>
  match expect ":" s with Some s =>
  match read_digits 2 0 s with Some (sec, s) =>
  match read_fraction s with Some us =>
    Some (mkdatetime y mo d h mi sec us)
  | None => None end
  | None => None end
  | None => None end
  | None => None end
  | None => None end
  | None => None end
  | None => None end
  | None => None end
  | None => None end
  | None => None end
  | None => None end
  | None => None
  end.

Definition is_iso8601 (s : string) : bool :=
  match parse_iso8601 s with
  | Some d => valid_datetime d
  | None => false
  end.

(** ** Base64, as [base64.b64decode] reads it

    [b64decode(s)] with the default [validate=False] first encodes [s] as
    ASCII (a [ValueError] on any other character), then runs binascii's
    non-strict decoder: characters outside the alphabet are skipped, a
    complete padding ends the input, and only a dangling quad raises
    [binascii.Error]. *)

(** binascii's [table_a2b_base64]. *)
Definition a2b (c : ascii) : option N :=
  let n := N_of_ascii c in
  if (65 <=? n) && (n <=? 90) then Some (n - 65)
  else if (97 <=? n) && (n <=? 122) then Some (n - 71)
  else if (48 <=? n) && (n <=? 57) then Some (n + 4)
  else if n =? 43 then Some 62
  else if n =? 47 then Some 63
  else None.

Definition BASE64_PAD : ascii := "="%char.

(** A store into the [unsigned char] output buffer keeps the low 8 bits. *)
Definition to_uchar (x : N) : N := N.land x 255.

Definition incorrect_padding : exn := BinasciiError "Incorrect padding".
Definition decimal (n : N) : string := NilZero.string_of_uint (N.to_uint n).

(** The error for one dangling data character; [written] is the number of
    bytes written so far, from which binascii computes the count of data
    characters that it reports. *)
Definition one_more_than_multiple_of_4 (written : nat) : exn :=
  BinasciiError
    ("Invalid base64-encoded string: number of data characters ("
     +:+ decimal (N.of_nat written / 3 * 4 + 1)
     +:+ ") cannot be 1 more than a multiple of 4").

(** The decoding loop of [binascii.a2b_base64] in non-strict mode, over the
    remaining input, with the loop's variables [quad_pos], [leftchar],
    [pads] and the bytes written so far. *)
Fixpoint a2b_base64_loop (s : string) (quad_pos : nat) (leftchar : N)
    (pads : nat) (out : list N) : result (list N) :=
  match s with
  | EmptyString =>
      match quad_pos with
      | O => Ok out
      | 1%nat => Raise (one_more_than_multiple_of_4 (length out))
      | _ => Raise incorrect_padding
      end
  | String this_ch rest =>
      if Ascii.eqb this_ch BASE64_PAD then
        if (2 <=? quad_pos)%nat then
          if (4 <=? quad_pos + S pads)%nat then Ok out
          else a2b_base64_loop rest quad_pos leftchar (S pads) out
        else a2b_base64_loop rest quad_pos leftchar pads out
      else
        match a2b this_ch with
        | None => a2b_base64_loop rest quad_pos leftchar pads out
        | Some v =>
            match quad_pos with
            | O => a2b_base64_loop rest 1 v 0 out
            | 1%nat =>
                a2b_base64_loop rest 2 (N.land v 15) 0
                  (out ++ [to_uchar (N.lor (N.shiftl leftchar 2) (N.shiftr v 4))])
            | 2%nat =>
                a2b_base64_loop rest 3 (N.land v 3) 0
                  (out ++ [to_uchar (N.lor (N.shiftl leftchar 4) (N.shiftr v 2))])
            | _ =>
                a2b_base64_loop rest 0 0 0
                  (out ++ [to_uchar (N.lor (N.shiftl leftchar 6) v)])
            end
        end
  end.

Definition a2b_base64 (s : string) : result (list N) :=
  a2b_base64_loop s 0 0 0 [].

Fixpoint is_ascii_str (s : string) : bool :=
  match s with
  | EmptyString => true
  | String c rest => (N_of_ascii c <? 128) && is_ascii_str rest
  end.

Definition b64decode (s : string) : result (list N) :=
  if is_ascii_str s then a2b_base64 s
  else Raise (ValueError "string argument should contain only ASCII characters").

(** The standard encoder (RFC 4648, with padding), the client side of an
    upload: what [b64decode] is meant to invert. *)
Definition table_b2a_base64 : string :=
  "ABCDEFGHIJKLMNOPQRSTUVWXYZabcdefghijklmnopqrstuvwxyz0123456789+/".

Definition b2a (v : N) : ascii :=
  match String.get (N.to_nat v) table_b2a_base64 with
  | Some c => c
  | None => BASE64_PAD
  end.

Fixpoint b64encode (bs : list N) : string :=
  match bs with
  | [] => ""
  | [b0] =>
      String (b2a (N.shiftr b0 2))
     (String (b2a (N.shiftl (N.land b0 3) 4)) "==")
  | [b0; b1] =>
      String (b2a (N.shiftr b0 2))
     (String (b2a (N.lor (N.shiftl (N.land b0 3) 4) (N.shiftr b1 4)))
     (String (b2a (N.shiftl (N.land b1 15) 2)) "="))
  | b0 :: b1 :: b2 :: rest =>
      String (b2a (N.shiftr b0 2))
     (String (b2a (N.lor (N.shiftl (N.land b0 3) 4) (N.shiftr b1 4)))
     (String (b2a (N.lor (N.shiftl (N.land b1 15) 2) (N.shiftr b2 6)))
     (String (b2a (N.land b2 63)) (b64encode rest))))
  end.

(** The meaning of a well-formed base64 string (RFC 4648, section 4): whole
    groups of four characters of the alphabet, each worth three bytes, the
    last group possibly ending in one or two padding characters and then
    worth two bytes or one.  Anything else has no meaning. *)
Definition is_empty_string (s : string) : bool :=
  match s with
  | EmptyString => true
  | String _ _ => false
  end.

Fixpoint rfc4648_decode (s : string) : option (list N) :=
  match s with
  | EmptyString => Some []
  | String c0 (String c1 (String c2 (String c3 rest))) =>
      match a2b c0, a2b c1 with
      | Some v0, Some v1 =>
          let b0 := v0 * 4 + v1 / 16 in
          if Ascii.eqb c2 BASE64_PAD then
            if Ascii.eqb c3 BASE64_PAD && is_empty_string rest
            then Some [b0] else None
          else
            match a2b c2 with
            | Some v2 =>
                let b1 := (v1 mod 16) * 16 + v2 / 4 in
                if Ascii.eqb c3 BASE64_PAD then
                  if is_empty_string rest then Some [b0; b1] else None
                else
                  match a2b c3 with
                  | Some v3 =>
                      match rfc4648_decode rest with
                      | Some bs => Some (b0 :: b1 :: ((v2 mod 4) * 64 + v3) :: bs)
                      | None => None
                      end
                  | None => None
                  end
            | None => None
            end
      | _, _ => None
      end
  | _ => None
  end.

(** The same meaning as a relation, one rule per shape of group. *)
Inductive rfc4648 : string -> list N -> Prop :=
| rfc4648_end : rfc4648 "" []
| rfc4648_one_byte c0 c1 v0 v1 :
    a2b c0 = Some v0 -> a2b c1 = Some v1 ->
    rfc4648 (String c0 (String c1 "==")) [v0 * 4 + v1 / 16]
| rfc4648_two_bytes c0 c1 c2 v0 v1 v2 :
    a2b c0 = Some v0 -> a2b c1 = Some v1 -> a2b c2 = Some v2 ->
    rfc4648 (String c0 (String c1 (String c2 "=")))
      [v0 * 4 + v1 / 16; (v1 mod 16) * 16 + v2 / 4]
| rfc4648_group c0 c1 c2 c3 v0 v1 v2 v3 rest bs :
    a2b c0 = Some v0 -> a2b c1 = Some v1 -> a2b c2 = Some v2 ->
    a2b c3 = Some v3 -> rfc4648 rest bs ->
    rfc4648 (String c0 (String c1 (String c2 (String c3 rest))))
      (v0 * 4 + v1 / 16 :: (v1 mod 16) * 16 + v2 / 4 :: (v2 mod 4) * 64 + v3 :: bs).

(** The numbers below [n], for exhaustive checks over bytes and sextets. *)
Definition below (n : nat) : list N := map N.of_nat (seq 0 n).

Definition is_byte (b : N) : bool := b <? 256.

(** [s.split(",", 1)[1]]: what follows the first comma; the index fails
    when there is no comma. *)
Fixpoint after_first_comma (s : string) : option string :=
  match s with
  | EmptyString => None
  | String c rest => if Ascii.eqb c "," then Some rest else after_first_comma rest
  end.

(** ** JSON values, documents and the world *)

#[warnings="-register-all"]
Inductive json : Type :=
| JNull
| JBool (b : bool)
| JNum (q : Q)
| JStr (s : string)
| JList (l : list json)
| JDict (kv : list (string * json)).

(** [ImageAnalysisRequest]. *)
Record ImageAnalysisRequest : Type := {
  rq_image_url : option string;
  rq_image_base64 : option string;
  rq_image_name : string;
  rq_analysis_type : string;
  rq_descriptions : option (list string);
  rq_metadata : option (list (string * json)) }.

(** [ImageAnalysisUpdate]. *)
Record ImageAnalysisUpdate : Type := {
  up_descriptions : option (list string);
  up_metadata : option (list (string * json)) }.

(** A document of the collection [sight_data.artifacts]. *)
Record Doc : Type := {
  _id : string;
  image_name : string;
  analysis_type : string;
  descriptions : option (list string);
  metadata : list (string * json);
  image_url : option string;
  image_base64 : option string;
  created_at : datetime;
  updated_at : datetime }.

(** A document as the store holds it once the driver has encoded it: its
    two dates keep milliseconds only. *)
Definition bson_doc (d : Doc) : Doc :=
  {| _id := _id d;
     image_name := image_name d;
     analysis_type := analysis_type d;
     descriptions := descriptions d;
     metadata := metadata d;
     image_url := image_url d;
     image_base64 := image_base64 d;
     created_at := bson_datetime (created_at d);
     updated_at := bson_datetime (updated_at d) |}.

(** What [serialize_doc] leaves in the dict: [_id] replaced by the string
    [id], both timestamps rendered by [isoformat]. *)
Record SerializedDoc : Type := {
  s_id : string;
  s_image_name : string;
  s_analysis_type : string;
  s_descriptions : option (list string);
  s_metadata : list (string * json);
  s_image_url : option string;
  s_image_base64 : option string;
  s_created_at : string;
  s_updated_at : string }.

(** [ImageAnalysisResponse], the response model of the record routes, as
    the body sent: [descriptions] must be a list, and [image_url] and
    [image_base64] are no fields of the model.  The model reads the two
    timestamps, texts that [isoformat] wrote, as datetimes, and the body
    renders them by [isoformat] again: they are kept as their texts. *)
Record ImageAnalysisResponse : Type := {
  m_id : string;
  m_image_name : string;
  m_analysis_type : string;
  m_descriptions : list string;
  m_metadata : list (string * json);
  m_created_at : string;
  m_updated_at : string }.

(** The dict that [create_image_analysis] returns. *)
Record CreateResponse : Type := {
  r_id : string;
  r_image_name : string;
  r_analysis_type : string;
  r_descriptions : list string;
  r_metadata : list (string * json);
  r_created_at : string;
  r_updated_at : string }.

Record UploadImageResponse : Type := {
  u_image_url : string;
  u_image_id : string }.

Record DetectArtworkResponse : Type := {
  title : string;
  description : string;
  confidence : Q }.

(** What [requests.post] to the vision endpoint comes to: an exception
    (timeout, connection error), or a response with its [ok] flag, status
    code and what [response.json()] gives ([None] when the body is not
    JSON). *)
Inductive post_outcome : Type :=
| PostRaises (e : exn)
| PostResponse (ok : bool) (status : Z) (body_json : option json).

(** Everything outside the handlers that they read or write. *)
Record World : Type := {
  reachable : bool;                 (* can the driver select a MongoDB server *)
  docs : list Doc;                  (* the collection, in natural order *)
  oid_gen : nat -> string;          (* ObjectIds the driver will generate *)
  oid_next : nat;
  clock : nat -> datetime;          (* successive readings of the clock *)
  ticks : nat;
  files : gmap string (list N);     (* temp_images/: file name to content *)
  uuid_gen : nat -> string;         (* values of str(uuid.uuid4()) *)
  uuid_next : nat;
  environ : gmap string string;     (* os.environ *)
  overshoot : post_outcome }.       (* the external vision API *)

Definition with_docs (ds : list Doc) (w : World) : World :=
  {| reachable := reachable w; docs := ds; oid_gen := oid_gen w;
     oid_next := oid_next w; clock := clock w; ticks := ticks w;
     files := files w; uuid_gen := uuid_gen w; uuid_next := uuid_next w;
     environ := environ w; overshoot := overshoot w |}.

Definition with_oid_next (n : nat) (w : World) : World :=
  {| reachable := reachable w; docs := docs w; oid_gen := oid_gen w;
     oid_next := n; clock := clock w; ticks := ticks w;
     files := files w; uuid_gen := uuid_gen w; uuid_next := uuid_next w;
     environ := environ w; overshoot := overshoot w |}.

Definition with_ticks (n : nat) (w : World) : World :=
  {| reachable := reachable w; docs := docs w; oid_gen := oid_gen w;
     oid_next := oid_next w; clock := clock w; ticks := n;
     files := files w; uuid_gen := uuid_gen w; uuid_next := uuid_next w;
     environ := environ w; overshoot := overshoot w |}.

Definition with_files (fs : gmap string (list N)) (w : World) : World :=
  {| reachable := reachable w; docs := docs w; oid_gen := oid_gen w;
     oid_next := oid_next w; clock := clock w; ticks := ticks w;
     files := fs; uuid_gen := uuid_gen w; uuid_next := uuid_next w;
     environ := environ w; overshoot := overshoot w |}.

Definition with_uuid_next (n : nat) (w : World) : World :=
  {| reachable := reachable w; docs := docs w; oid_gen := oid_gen w;
     oid_next := oid_next w; clock := clock w; ticks := ticks w;
     files := files w; uuid_gen := uuid_gen w; uuid_next := n;
     environ := environ w; overshoot := overshoot w |}.

(** ** The handler monad *)

Definition M (A : Type) : Type := World -> result A * World.

Definition ret {A} (a : A) : M A := fun w => (Ok a, w).
Definition raise {A} (e : exn) : M A := fun w => (Raise e, w).

Definition bind {A B} (m : M A) (k : A -> M B) : M B :=
  fun w =>
    match m w with
    | (Ok a, w') => k a w'
    | (Raise e, w') => (Raise e, w')
    end.

(** [try: body except Exception as e: handler e].  Every class of [exn]
    derives from [Exception], so the clause catches whatever [body]
    raises; effects made before the raise stay. *)
Definition try_except {A} (body : M A) (handler : exn -> M A) : M A :=
  fun w =>
    match body w with
    | (Ok a, w') => (Ok a, w')
    | (Raise e, w') => handler e w'
    end.

Definition lift {A} (r : result A) : M A := fun w => (r, w).

Declare Scope handler_scope.
Delimit Scope handler_scope with handler.
Notation "x <- m ;; k" := (bind m (fun x => k))
  (at level 100, m at next level, right associativity) : handler_scope.
Notation "m ;; k" := (bind m (fun _ => k))
  (at level 100, right associativity) : handler_scope.
Local Open Scope handler_scope.

(** What the HTTP front sends for a handler's outcome when the value
    returned needs no conversion (an instance of the route's response model,
    or a route without one): the value with status 200, an [HTTPException]
    with its own status and detail, any other exception as a bare 500.  The
    routes whose handlers return the dicts of [serialize_doc] declare a
    response model, through which the front passes the dict first: these
    are served by [serve_model] below. *)
Inductive http_response (A : Type) : Type :=
| Http200 (body : A)
| HttpError (status : Z) (detail : string).
Arguments Http200 {A} body.
Arguments HttpError {A} status detail.

Definition respond {A} (r : result A) : http_response A :=
  match r with
  | Ok a => Http200 a
  | Raise (HTTPException s d) => HttpError s d
  | Raise _ => HttpError 500 "Internal Server Error"
  end.

Definition status_of {A} (r : http_response A) : Z :=
  match r with
  | Http200 _ => 200
  | HttpError s _ => s
  end.

(** Runs a handler and gives the HTTP response and the world after it. *)
Definition serve {A} (h : M A) (w : World) : http_response A * World :=
  let '(r, w') := h w in (respond r, w').

(** A route declared with [response_model=...]: the front validates the
    value the handler returned against the model and sends the model's
    fields only; a value that fails the validation is not sent, the request
    ends in a bare 500. *)
Definition respond_model {A B} (model : A -> option B) (r : result A)
  : http_response B :=
  match r with
  | Ok a =>
      match model a with
      | Some b => Http200 b
      | None => HttpError 500 "Internal Server Error"
      end
  | Raise (HTTPException s d) => HttpError s d
  | Raise _ => HttpError 500 "Internal Server Error"
  end.

Definition serve_model {A B} (model : A -> option B) (h : M A) (w : World)
  : http_response B * World :=
  let '(r, w') := h w in (respond_model model r, w').

(** ** The clock, identifiers and the document store (pymongo) *)

Definition utcnow : M datetime :=
  fun w => (Ok (clock w (ticks w)), with_ticks (S (ticks w)) w).

(** [datetime.now()]: one more reading of the same clock. *)
Definition now : M datetime := utcnow.

Definition uuid4 : M string :=
  fun w => (Ok (uuid_gen w (uuid_next w)), with_uuid_next (S (uuid_next w)) w).

Definition getenv (name : string) : M (option string) :=
  fun w => (Ok (environ w !! name), w).

(** [open(filepath, "wb")] and [f.write]: creates or truncates the file. *)
Definition write_file (filename : string) (content : list N) : M unit :=
  fun w => (Ok tt, with_files (<[filename := content]> (files w)) w).

Definition is_hex (c : ascii) : bool :=
  let n := N_of_ascii c in
  ((48 <=? n) && (n <=? 57)) || ((97 <=? n) && (n <=? 102))
  || ((65 <=? n) && (n <=? 70)).

Definition lower_hex (c : ascii) : ascii :=
  let n := N_of_ascii c in
  if (65 <=? n) && (n <=? 70) then ascii_of_N (n + 32) else c.

Fixpoint string_forallb (p : ascii -> bool) (s : string) : bool :=
  match s with
  | EmptyString => true
  | String c rest => p c && string_forallb p rest
  end.

Fixpoint string_map (f : ascii -> ascii) (s : string) : string :=
  match s with
  | EmptyString => EmptyString
  | String c rest => String (f c) (string_map f rest)
  end.

(** The strings taken for an id: 24 hexadecimal characters.
    [bson.ObjectId] reads a string of 24 characters with [bytes.fromhex],
    which also skips blanks between pairs of digits; such a string gives an
    id of fewer than 12 bytes, which no stored document has.  The model
    refuses it with the other malformed strings: in every handler either
    way ends in the same [except Exception] with the same status and the
    same store, and only the text quoted in the detail can differ. *)
Definition is_valid_oid (s : string) : bool :=
  (String.length s =? 24)%nat && string_forallb is_hex s.

(** [ObjectId(s)]; an ObjectId is kept as its [str()], the lower-case hex. *)
Definition ObjectId (s : string) : M string :=
  if is_valid_oid s then ret (string_map lower_hex s) else raise (InvalidId s).

(** [get_collection()] builds the client once and hands out the collection;
    building it contacts no server.  Every operation on the collection first
    selects a server, which fails after the selection timeout when none is
    reachable. *)
Definition get_collection : M unit := ret tt.

Definition select_server : M unit :=
  fun w =>
    if reachable w then (Ok tt, w) else (Raise ServerSelectionTimeoutError, w).

Definition find_one (query : Doc -> bool) : M (option Doc) :=
  select_server ;;
  fun w => (Ok (List.find query (docs w)), w).

(** [insert_one]: the driver gives the document a fresh [_id], encodes it
    and appends it; the argument is the document awaiting its [_id]. *)
Definition insert_one (doc : string -> Doc) : M string :=
  select_server ;;
  fun w =>
    let oid := oid_gen w (oid_next w) in
    (Ok oid,
     with_docs (docs w ++ [bson_doc (doc oid)]) (with_oid_next (S (oid_next w)) w)).

Fixpoint update_first (query : Doc -> bool) (set : Doc -> Doc) (ds : list Doc)
  : list Doc * nat :=
  match ds with
  | [] => ([], O)
  | d :: rest =>
      if query d then (set d :: rest, 1%nat)
      else let '(rest', n) := update_first query set rest in (d :: rest', n)
  end.

(** [update_one(query, {"$set": ...})]: applies the [$set] to the first
    matching document; the result is [matched_count].  [set] is the effect
    of the [$set] document as encoded for the store: the dates it sets are
    BSON dates (see [apply_update] and [apply_upsert]). *)
Definition update_one (query : Doc -> bool) (set : Doc -> Doc) : M nat :=
  select_server ;;
  fun w =>
    let '(ds, n) := update_first query set (docs w) in (Ok n, with_docs ds w).

(** [.sort("created_at", -1)]: newest first.  The store does not say in
    which order it gives documents with equal keys, and it need not be the
    same in two queries; the model takes them in their natural order, and
    what is stated of a sorted answer below holds for any order of the
    ties. *)
Fixpoint insert_desc (d : Doc) (ds : list Doc) : list Doc :=
  match ds with
  | [] => [d]
  | d' :: rest =>
      if dt_ltb (created_at d) (created_at d') then d' :: insert_desc d rest
      else d :: ds
  end.

Definition sort_created_at_desc (ds : list Doc) : list Doc :=
  fold_right insert_desc [] ds.

(** [.limit(n)]: a limit of 0 is equivalent to no limit; a negative limit is
    sent as its absolute value (with a single batch). *)
Definition cursor_limit (limit : Z) (ds : list Doc) : list Doc :=
  if (limit =? 0)%Z then ds else firstn (Z.to_nat (Z.abs limit)) ds.

(** [coll.find(query).sort("created_at", -1).limit(limit)], iterated. *)
Definition find_sort_limit (query : Doc -> bool) (limit : Z) : M (list Doc) :=
  select_server ;;
  fun w =>
    (Ok (cursor_limit limit (sort_created_at_desc (List.filter query (docs w)))), w).

(** ** [serialize_doc] *)

Definition serialize (d : Doc) : SerializedDoc :=
  {| s_id := _id d;
     s_image_name := image_name d;
     s_analysis_type := analysis_type d;
     s_descriptions := descriptions d;
     s_metadata := metadata d;
     s_image_url := image_url d;
     s_image_base64 := image_base64 d;
     s_created_at := isoformat (created_at d);
     s_updated_at := isoformat (updated_at d) |}.

(** [serialize_doc(doc)]: [None] stays [None] ([if doc:] fails); a document
    gets [id] and its two timestamps in ISO format. *)
Definition serialize_doc (doc : option Doc) : option SerializedDoc :=
  match doc with
  | Some d => Some (serialize d)
  | None => None
  end.

(** ** The response model of the record routes *)

(** One dict of [serialize_doc] validated against [ImageAnalysisResponse]:
    [descriptions: List[str]] refuses [None]; the other fields of the model
    are taken over, the rest of the dict is dropped. *)
Definition validate_record (s : SerializedDoc) : option ImageAnalysisResponse :=
  match s_descriptions s with
  | Some ds =>
      Some {| m_id := s_id s;
              m_image_name := s_image_name s;
              m_analysis_type := s_analysis_type s;
              m_descriptions := ds;
              m_metadata := s_metadata s;
              m_created_at := s_created_at s;
              m_updated_at := s_updated_at s |}
  | None => None
  end.

(** [response_model=ImageAnalysisResponse] on a handler that returns
    [serialize_doc(...)]: [None] is no record. *)
Definition validate_optional (o : option SerializedDoc)
  : option ImageAnalysisResponse :=
  match o with
  | Some s => validate_record s
  | None => None
  end.

(** [response_model=List[ImageAnalysisResponse]]: every element has to
    validate. *)
Fixpoint validate_list (l : list SerializedDoc)
  : option (list ImageAnalysisResponse) :=
  match l with
  | [] => Some []
  | s :: rest =>
      match validate_record s, validate_list rest with
      | Some m, Some ms => Some (m :: ms)
      | _, _ => None
      end
  end.

(** ** The handlers *)

(** *** POST /api/upload-temp-image *)

Definition TEMP_IMAGE_URL : string := "http://localhost:8000/temp_images/".

(** The payload of the request: what follows the first comma when the
    string starts with "data:", the string itself otherwise. *)
Definition base64_data_of (image_base64 : string) : result string :=
  if String.prefix "data:" image_base64 then
    match after_first_comma image_base64 with
    | Some rest => Ok rest
    | None => Raise (IndexError "list index out of range")
    end
  else Ok image_base64.

Definition upload_temp_image (image_base64 : string) : M UploadImageResponse :=
  try_except
    (base64_data <- lift (base64_data_of image_base64) ;;
     image_bytes <- lift (b64decode base64_data) ;;
     image_id <- uuid4 ;;
     let filename := image_id +:+ ".jpg" in
     write_file filename image_bytes ;;
     let image_url := TEMP_IMAGE_URL +:+ filename in
     ret {| u_image_url := image_url; u_image_id := image_id |})
    (fun e =>
       raise (HTTPException 400 ("Failed to upload image: " +:+ exn_str e))).

(** The bytes the handler is about to write, or the exception that stops
    it before. *)
Definition image_bytes_of (image_base64 : string) : result (list N) :=
  match base64_data_of image_base64 with
  | Ok base64_data => b64decode base64_data
  | Raise e => Raise e
  end.

Fixpoint strip_prefix (p s : string) : option string :=
  match p, s with
  | EmptyString, _ => Some s
  | String a p', String b s' => if Ascii.eqb a b then strip_prefix p' s' else None
  | String _ _, EmptyString => None
  end.

(** GET on a URL of the static mount [/temp_images]: the content of the
    file of that name, when there is one. *)
Definition fetch (url : string) (w : World) : option (list N) :=
  match strip_prefix TEMP_IMAGE_URL url with
  | Some filename => files w !! filename
  | None => None
  end.

(** *** POST /api/image-analysis, first handler: [create_image_analysis] *)

(** A name that a function body binds anywhere (here by the
    [from datetime import datetime] of the [except] block, line 167) is a
    local variable of the whole function: its slot in the frame is empty when
    the function is entered, and reading it before the binding statement has
    run raises [UnboundLocalError]; the module-level [datetime] is not
    consulted. *)
Inductive local_slot : Type := Unbound | Bound.

Definition load_fast (name : string) (slot : local_slot) : M unit :=
  match slot with
  | Bound => ret tt
  | Unbound => raise (UnboundLocalError name)
  end.

(** [x or default] on an optional list. *)
Definition or_empty {A} (x : option (list A)) : list A :=
  match x with
  | Some l => l
  | None => []
  end.

Section Create.
(** [str(d.timestamp())]: the epoch seconds of a reading, as Python prints
    a float. *)
Variable timestamp_repr : datetime -> string.

(** The body of [create_image_analysis], run in a frame whose local
    [datetime] is in state [datetime_local]. *)
Definition create_image_analysis_in (datetime_local : local_slot)
    (analysis : ImageAnalysisRequest) : M CreateResponse :=
  load_fast "datetime" datetime_local ;;
  created <- utcnow ;;
  load_fast "datetime" datetime_local ;;
  updated <- utcnow ;;
  let doc (oid : string) : Doc :=
    {| _id := oid;
       image_name := rq_image_name analysis;
       analysis_type := rq_analysis_type analysis;
       descriptions := Some (or_empty (rq_descriptions analysis));
       metadata := or_empty (rq_metadata analysis);
       image_url := rq_image_url analysis;
       image_base64 := rq_image_base64 analysis;
       created_at := created;
       updated_at := updated |} in
  doc_id <-
    try_except
      (get_collection ;;
       inserted_id <- insert_one doc ;;
       ret inserted_id)
      (fun mongo_error =>
         (* from datetime import datetime: binds the local *)
         load_fast "datetime" Bound ;;
         t <- now ;;
         ret ("mock_" +:+ timestamp_repr t)) ;;
  ret {| r_id := doc_id;
         r_image_name := rq_image_name analysis;
         r_analysis_type := rq_analysis_type analysis;
         r_descriptions := or_empty (rq_descriptions analysis);
         r_metadata := or_empty (rq_metadata analysis);
         r_created_at := isoformat created;
         r_updated_at := isoformat updated |}.

(** The handler as Python runs it: the frame starts with the local
    [datetime] unbound. *)
Definition create_image_analysis (analysis : ImageAnalysisRequest)
  : M CreateResponse :=
  create_image_analysis_in Unbound analysis.
End Create.

(** *** GET /api/image-analysis *)

(** Truth value of an optional string: [None] and [""] are false. *)
Definition truthy_str (s : option string) : bool :=
  match s with
  | Some EmptyString | None => false
  | Some _ => true
  end.

(** [query = {}], then [query["analysis_type"] = analysis_type] when the
    parameter is truthy: an exact match on the type, or no condition. *)
Definition list_query (analysis_type_param : option string) (d : Doc) : bool :=
  match analysis_type_param with
  | Some t =>
      if truthy_str analysis_type_param then String.eqb (analysis_type d) t
      else true
  | None => true
  end.

Definition get_all_analyses (analysis_type_param : option string) (limit : Z)
  : M (list SerializedDoc) :=
  try_except
    (get_collection ;;
     let query := list_query analysis_type_param in
     cursor <- find_sort_limit query limit ;;
     ret (map serialize cursor))
    (fun e =>
       raise (HTTPException 500 ("Failed to retrieve analyses: " +:+ exn_str e))).

(** The query parameters as the route declares them:
    [analysis_type: Optional[str] = None, limit: int = 50]. *)
Definition get_all_analyses_request (analysis_type_param : option string)
    (limit : option Z) : M (list SerializedDoc) :=
  get_all_analyses analysis_type_param
    (match limit with Some n => n | None => 50%Z end).

(** *** GET /api/image-analysis/{analysis_id} *)

Definition by_id (oid : string) (d : Doc) : bool := String.eqb (_id d) oid.

Definition get_analysis_by_id (analysis_id : string) : M SerializedDoc :=
  try_except
    (get_collection ;;
     oid <- ObjectId analysis_id ;;
     doc <- find_one (by_id oid) ;;
     match doc with
     | None => raise (HTTPException 404 "Analysis not found")
     | Some d => ret (serialize d)
     end)
    (fun e =>
       raise (HTTPException 500 ("Failed to retrieve analysis: " +:+ exn_str e))).

(** *** PUT /api/image-analysis/{analysis_id} *)

(** The [$set] of [update_doc] as the store applies it: [updated_at]
    always (the reading of the clock, as a BSON date), [descriptions] and
    [metadata] when the body has them. *)
Definition apply_update (updated : datetime) (update_data : ImageAnalysisUpdate)
    (d : Doc) : Doc :=
  {| _id := _id d;
     image_name := image_name d;
     analysis_type := analysis_type d;
     descriptions :=
       match up_descriptions update_data with
       | Some l => Some l
       | None => descriptions d
       end;
     metadata :=
       match up_metadata update_data with
       | Some m => m
       | None => metadata d
       end;
     image_url := image_url d;
     image_base64 := image_base64 d;
     created_at := created_at d;
     updated_at := bson_datetime updated |}.

Definition update_analysis (analysis_id : string)
    (update_data : ImageAnalysisUpdate) : M (option SerializedDoc) :=
  try_except
    (get_collection ;;
     updated <- utcnow ;;
     oid <- ObjectId analysis_id ;;
     matched_count <- update_one (by_id oid) (apply_update updated update_data) ;;
     if (matched_count =? 0)%nat then
       raise (HTTPException 404 "Analysis not found")
     else
       oid' <- ObjectId analysis_id ;;
       updated_doc <- find_one (by_id oid') ;;
       ret (serialize_doc updated_doc))
    (fun e =>
       raise (HTTPException 500 ("Failed to update analysis: " +:+ exn_str e))).

(** *** POST /api/image-analysis, second handler:
    [create_or_update_image_analysis]

    At module level [datetime] is the class [datetime.datetime]
    ([from datetime import datetime], line 2), and this function has no
    binding of its own for the name.  [datetime.timezone] is therefore an
    attribute lookup on the class. *)

Inductive tzinfo : Type := UTC.

(** The attributes of the class [datetime.datetime]. *)
Definition datetime_class_attrs : list string :=
  ["min"; "max"; "resolution"; "today"; "now"; "utcnow"; "fromtimestamp";
   "utcfromtimestamp"; "fromordinal"; "fromisoformat"; "fromisocalendar";
   "combine"; "strptime"; "strftime"; "isoformat"; "timestamp"; "replace";
   "astimezone"; "date"; "time"; "timetz"; "utcoffset"; "dst"; "tzname";
   "timetuple"; "utctimetuple"; "toordinal"; "weekday"; "isoweekday";
   "isocalendar"; "ctime"; "year"; "month"; "day"; "hour"; "minute";
   "second"; "microsecond"; "tzinfo"; "fold"].

Definition datetime_getattr (name : string) : M string :=
  if existsb (String.eqb name) datetime_class_attrs then ret name
  else raise (AttributeError
                ("type object 'datetime.datetime' has no attribute '"
                 +:+ name +:+ "'")).

(** [.utc] of an attribute of the class: none of them is the module
    [datetime.timezone]. *)
Definition attr_utc (attr : string) : M tzinfo :=
  raise (AttributeError ("'" +:+ attr +:+ "' object has no attribute 'utc'")).

(** [datetime.now(tz)]: a reading of the clock. *)
Definition now_tz (tz : tzinfo) : M datetime := utcnow.

Definition by_name_and_type (analysis : ImageAnalysisRequest) (d : Doc) : bool :=
  String.eqb (image_name d) (rq_image_name analysis)
  && String.eqb (analysis_type d) (rq_analysis_type analysis).

(** The [$set] of the whole [doc] of the upsert, as the store applies it. *)
Definition apply_upsert (analysis : ImageAnalysisRequest) (updated : datetime)
    (d : Doc) : Doc :=
  {| _id := _id d;
     image_name := rq_image_name analysis;
     analysis_type := rq_analysis_type analysis;
     descriptions := rq_descriptions analysis;
     metadata := or_empty (rq_metadata analysis);
     image_url := rq_image_url analysis;
     image_base64 := rq_image_base64 analysis;
     created_at := created_at d;
     updated_at := bson_datetime updated |}.

Definition create_or_update_image_analysis (analysis : ImageAnalysisRequest)
  : M (option SerializedDoc) :=
  try_except
    (get_collection ;;
     let query := by_name_and_type analysis in
     existing <- find_one query ;;
     timezone <- datetime_getattr "timezone" ;;
     utc <- attr_utc timezone ;;
     updated <- now_tz utc ;;
     match existing with
     | Some _ =>
         update_one query (apply_upsert analysis updated) ;;
         updated_doc <- find_one query ;;
         ret (serialize_doc updated_doc)
     | None =>
         created <- utcnow ;;
         inserted_id <-
           insert_one (fun oid =>
             {| _id := oid;
                image_name := rq_image_name analysis;
                analysis_type := rq_analysis_type analysis;
                descriptions := rq_descriptions analysis;
                metadata := or_empty (rq_metadata analysis);
                image_url := rq_image_url analysis;
                image_base64 := rq_image_base64 analysis;
                created_at := created;
                updated_at := updated |}) ;;
         created_doc <- find_one (by_id inserted_id) ;;
         ret (serialize_doc created_doc)
     end)
    (fun e =>
       raise (HTTPException 500
                ("Failed to save or update analysis: " +:+ exn_str e))).

(** The router tries the routes in the order of their registration and takes
    the first that matches: of the two handlers declared for
    POST /api/image-analysis, [create_image_analysis] (line 136) comes before
    [create_or_update_image_analysis] (line 262). *)
Inductive post_analysis_handler : Type :=
| CreateImageAnalysis
| CreateOrUpdateImageAnalysis.

Definition routes_post_image_analysis : list post_analysis_handler :=
  [CreateImageAnalysis; CreateOrUpdateImageAnalysis].

Definition dispatch_post_image_analysis : option post_analysis_handler :=
  hd_error routes_post_image_analysis.

(** *** POST /api/detect-artwork *)

(** [re.search(r'\{[^}]+\}', content)].  [until_close s] is the run of
    characters of [s] before its first closing brace, when there is one. *)
Fixpoint until_close (s : string) : option string :=
  match s with
  | EmptyString => None
  | String c rest =>
      if Ascii.eqb c "}" then Some EmptyString
      else match until_close rest with
           | Some body => Some (String c body)
           | None => None
           end
  end.

Fixpoint re_search_braces (s : string) : option string :=
  match s with
  | EmptyString => None
  | String c rest =>
      if Ascii.eqb c "{" then
        match until_close rest with
        | Some (String b body) => Some ("{" +:+ String b body +:+ "}")
        | _ => re_search_braces rest
        end
      else re_search_braces rest
  end.

Fixpoint assoc_get (key : string) (kv : list (string * json)) : option json :=
  match kv with
  | [] => None
  | (k, v) :: rest => if String.eqb k key then Some v else assoc_get key rest
  end.

(** [obj.get(key, default)]: only a dict has the method. *)
Definition dict_get (obj : json) (key : string) (default : json) : M json :=
  match obj with
  | JDict kv =>
      ret (match assoc_get key kv with Some v => v | None => default end)
  | _ => raise (AttributeError "object has no attribute 'get'")
  end.

Definition requests_post (image_url : string) : M (bool * Z * option json) :=
  fun w =>
    match overshoot w with
    | PostRaises e => (Raise e, w)
    | PostResponse ok status body => (Ok (ok, status, body), w)
    end.

Definition response_json (body : option json) : M json :=
  match body with
  | Some j => ret j
  | None => raise JSONDecodeError
  end.

Definition Q50 : Q := 50 # 1.
Definition Q0 : Q := 0 # 1.

Section Detect.
(** Library functions the handler calls: [json.loads] ([None] when it
    raises), pydantic's validation of a [str] and of a [float] field,
    and [str()] of a JSON value. *)
Variable json_loads : string -> option json.
Variable validate_str : json -> option string.
Variable validate_float : json -> option Q.
Variable py_str : json -> string.

(** [DetectArtworkResponse(title=t, description=d, confidence=c)]. *)
Definition make_response (t d c : json) : M DetectArtworkResponse :=
  match validate_str t, validate_str d, validate_float c with
  | Some t', Some d', Some c' =>
      ret {| title := t'; description := d'; confidence := c' |}
  | _, _, _ => raise ValidationError
  end.

(** The body of the inner [try]: reads the reply according to its shape. *)
Definition parse_detection (result : json) : M DetectArtworkResponse :=
  inner <- dict_get result "content" (JStr "{}") ;;
  content <- dict_get result "result" inner ;;
  data <-
    match content with
    | JStr text =>
        match re_search_braces text with
        | Some matched =>
            match json_loads matched with
            | Some j => ret j
            | None => raise JSONDecodeError
            end
        | None =>
            ret (JDict [("title", JStr ""); ("description", JStr text);
                        ("confidence", JNum Q50)])
        end
    | _ => ret content
    end ;;
  t <- dict_get data "title" (JStr "") ;;
  d <- dict_get data "description" (JStr "") ;;
  c <- dict_get data "confidence" (JNum Q50) ;;
  make_response t d c.

Definition detect_artwork (image_url_param : string) : M DetectArtworkResponse :=
  try_except
    (overshoot_api_key <- getenv "NEXT_PUBLIC_OVERSHOOT_API_KEY" ;;
     (if truthy_str overshoot_api_key then ret tt
      else raise (HTTPException 500 "Overshoot API key not configured")) ;;
     response <- requests_post image_url_param ;;
     let '(ok, status_code, body) := response in
     (if ok then ret tt
      else raise (HTTPException 500 "Overshoot detection failed")) ;;
     result <- response_json body ;;
     try_except
       (parse_detection result)
       (fun parse_error =>
          ret {| title := ""; description := py_str result; confidence := Q0 |}))
    (fun e =>
       ret {| title := ""; description := "Detection unavailable";
              confidence := Q0 |}).

(** The ways a detection can fail before a reply has been read into a
    response: no API key, the request raising (timeout, unreachable
    endpoint), a non-success status, a body that is not JSON, and a reply
    whose reading raises. *)
Inductive detect_failure (w : World) : Prop :=
| MissingApiKey :
    truthy_str (environ w !! "NEXT_PUBLIC_OVERSHOOT_API_KEY") = false ->
    detect_failure w
| RequestRaised e :
    overshoot w = PostRaises e -> detect_failure w
| NonSuccessStatus status body :
    overshoot w = PostResponse false status body -> detect_failure w
| BodyNotJson status :
    overshoot w = PostResponse true status None -> detect_failure w
| MalformedReply status reply e :
    overshoot w = PostResponse true status (Some reply) ->
    fst (parse_detection reply w) = Raise e -> detect_failure w.
End Detect.

(** A computation that leaves the world as it found it. *)
Definition read_only {A} (m : M A) : Prop := forall w, snd (m w) = w.

Definition is_b64_alphabet (c : ascii) : bool :=
  match a2b c with
  | Some _ => true
  | None => false
  end.

(** ** Exhaustive checks used by the proofs *)

(** What the decoding loop writes for two neighbouring sextets, in the
    arithmetic of the reference decoder. *)
Definition sextets_agree (v w : N) : bool :=
  (to_uchar (N.lor (N.shiftl v 2) (N.shiftr w 4)) =? v * 4 + w / 16)
  && (to_uchar (N.lor (N.shiftl (N.land v 15) 4) (N.shiftr w 2)) =? (v mod 16) * 16 + w / 4)
  && (to_uchar (N.lor (N.shiftl (N.land v 3) 6) w) =? (v mod 4) * 64 + w).

(** The encoder's sextets for two neighbouring bytes are in the table, are
    read back by [a2b], and carry the bytes' bits. *)
Definition reads_back (v : N) : bool :=
  match a2b (b2a v) with
  | Some v' => v' =? v
  | None => false
  end.

Definition bytes_agree (b c : N) : bool :=
  let s0 := N.shiftr b 2 in
  let s1 := N.lor (N.shiftl (N.land b 3) 4) (N.shiftr c 4) in
  let s1_last := N.shiftl (N.land b 3) 4 in
  let s2 := N.lor (N.shiftl (N.land b 15) 2) (N.shiftr c 6) in
  let s2_last := N.shiftl (N.land b 15) 2 in
  let s3 := N.land c 63 in
  reads_back s0 && reads_back s1 && reads_back s1_last && reads_back s2
  && reads_back s2_last && reads_back s3
  && (s0 * 4 + s1 / 16 =? b) && (s0 * 4 + s1_last / 16 =? b)
  && (s1 mod 16 =? c / 16) && (s2 / 4 =? b mod 16) && (s2_last / 4 =? b mod 16)
  && ((s2 mod 4) * 64 + s3 =? c).

(** ** Sample data, for the concrete instances below *)

Definition noon (us : N) : datetime := mkdatetime 2024 1 1 12 0 0 us.

Definition starry_night : Doc :=
  {| _id := "65a1b2c3d4e5f60718293a4b";
     image_name := "starry_night.jpg";
     analysis_type := "museum";
     descriptions := Some ["A swirling night sky over a village"];
     metadata := [("artist", JStr "Vincent van Gogh")];
     image_url := None;
     image_base64 := None;
     created_at := noon 0;
     updated_at := noon 0 |}.

Definition mona_lisa : Doc :=
  {| _id := "65a1b2c3d4e5f60718293a4c";
     image_name := "mona_lisa.jpg";
     analysis_type := "museum";
     descriptions := Some ["A portrait of a woman"];
     metadata := [];
     image_url := None;
     image_base64 := None;
     created_at := noon 30000;
     updated_at := noon 30000 |}.

Definition street_sign : Doc :=
  {| _id := "65a1b2c3d4e5f60718293a4d";
     image_name := "sign.jpg";
     analysis_type := "text";
     descriptions := Some ["EXIT"];
     metadata := [];
     image_url := None;
     image_base64 := None;
     created_at := noon 20000;
     updated_at := noon 20000 |}.

(** A record that was stored without descriptions. *)
Definition untitled_sketch : Doc :=
  {| _id := "65a1b2c3d4e5f60718293a4e";
     image_name := "sketch.png";
     analysis_type := "museum";
     descriptions := None;
     metadata := [];
     image_url := Some "https://example.org/sketch.png";
     image_base64 := None;
     created_at := noon 10000;
     updated_at := noon 10000 |}.


(** A world whose clock reads [noon first], [noon (first + 1)], ... *)
Definition sample_world (up : bool) (ds : list Doc) (first : N) : World :=
  {| reachable := up;
     docs := ds;
     oid_gen := fun n => zpad 24 (N.of_nat n);
     oid_next := 0;
     clock := fun n => noon (first + N.of_nat n);
     ticks := 0;
     files := ∅;
     uuid_gen := fun n => "3f2b8c1e-0000-4000-8000-" +:+ zpad 12 (N.of_nat n);
     uuid_next := 0;
     environ := ∅;
     overshoot := PostRaises (RequestException "Read timed out") |}.

Definition sample_request (ds : list string) : ImageAnalysisRequest :=
  {| rq_image_url := None;
     rq_image_base64 := None;
     rq_image_name := "starry_night.jpg";
     rq_analysis_type := "museum";
     rq_descriptions := Some ds;
     rq_metadata := None |}.

(** Readers of a reply that accept exactly a JSON string and a JSON
    number, and a [json.loads] that rejects everything: enough to run the
    detection handler on the sample worlds. *)
Definition only_str (j : json) : option string :=
  match j with
  | JStr s => Some s
  | _ => None
  end.

Definition only_num (j : json) : option Q :=
  match j with
  | JNum q => Some q
  | _ => None
  end.

Definition loads_nothing (s : string) : option json := None.

Definition repr_opaque (j : json) : string := "<reply>".

Definition with_overshoot (o : post_outcome) (key : string) (w : World) : World :=
  {| reachable := reachable w; docs := docs w; oid_gen := oid_gen w;
     oid_next := oid_next w; clock := clock w; ticks := ticks w;
     files := files w; uuid_gen := uuid_gen w; uuid_next := uuid_next w;
     environ := <["NEXT_PUBLIC_OVERSHOOT_API_KEY" := key]> (environ w);
     overshoot := o |}.

(** ** The remaining handlers and the routes *)

(** *** GET /api/image-analysis/search/{image_name} *)

Section Search.
(** The server's regular expressions: [regex_i pattern] is the matcher of
    [{"$regex": pattern, "$options": "i"}] on a string, or the exception the
    driver raises for a pattern the server rejects. *)
Variable regex_i : string -> result (string -> bool).

(** [coll.find(query).sort("created_at", -1)], iterated: no limit. *)
Definition find_regex_sorted (pattern : string) : M (list Doc) :=
  select_server ;;
  matches <- lift (regex_i pattern) ;;
  fun w =>
    (Ok (sort_created_at_desc
           (List.filter (fun d => matches (image_name d)) (docs w))), w).

Definition search_analyses_by_name (image_name_param : string)
  : M (list SerializedDoc) :=
  try_except
    (get_collection ;;
     cursor <- find_regex_sorted image_name_param ;;
     ret (map serialize cursor))
    (fun e => ret []).
End Search.

(** *** GET /api/health *)

Definition health_check : M (string * datetime) :=
  timestamp <- utcnow ;;
  ret ("healthy", timestamp).

(** *** The routes *)

Inductive request : Type :=
| PostUploadTempImage (image_base64 : string)
| PostImageAnalysis (analysis : ImageAnalysisRequest)
| GetImageAnalyses (analysis_type_param : option string) (limit : option Z)
| GetImageAnalysis (analysis_id : string)
| SearchImageAnalyses (image_name_param : string)
| PutImageAnalysis (analysis_id : string) (update_data : ImageAnalysisUpdate)
| GetHealth
| PostDetectArtwork (image_url_param : string)
| GetTempImage (file : string).

(** The status a request is answered with, and the world after it. *)
Definition answer {A} (h : M A) (w : World) : Z * World :=
  let '(r, w') := serve h w in (status_of r, w').

Definition answer_model {A B} (model : A -> option B) (h : M A) (w : World)
  : Z * World :=
  let '(r, w') := serve_model model h w in (status_of r, w').

Section Service.
Variable timestamp_repr : datetime -> string.
Variable json_loads : string -> option json.
Variable validate_str : json -> option string.
Variable validate_float : json -> option Q.
Variable py_str : json -> string.
Variable regex_i : string -> result (string -> bool).

Definition handle (rq : request) (w : World) : Z * World :=
  match rq with
  | PostUploadTempImage image_base64 => answer (upload_temp_image image_base64) w
  | PostImageAnalysis analysis =>
      match dispatch_post_image_analysis with
      | Some CreateImageAnalysis =>
          answer (create_image_analysis timestamp_repr analysis) w
      | Some CreateOrUpdateImageAnalysis =>
          answer (create_or_update_image_analysis analysis) w
      | None => (404%Z, w)
      end
  | GetImageAnalyses ty limit =>
      answer_model validate_list (get_all_analyses_request ty limit) w
  | GetImageAnalysis analysis_id =>
      answer_model validate_record (get_analysis_by_id analysis_id) w
  | SearchImageAnalyses name =>
      answer_model validate_list (search_analyses_by_name regex_i name) w
  | PutImageAnalysis analysis_id update_data =>
      answer_model validate_optional (update_analysis analysis_id update_data) w
  | GetHealth => answer health_check w
  | PostDetectArtwork url =>
      answer (detect_artwork json_loads validate_str validate_float py_str url) w
  | GetTempImage file =>
      match files w !! file with
      | Some _ => (200%Z, w)
      | None => (404%Z, w)
      end
  end.

(** A session: requests served one after the other. *)
Fixpoint handle_all (rqs : list request) (w : World) : World :=
  match rqs with
  | [] => w
  | rq :: rest => handle_all rest (snd (handle rq w))
  end.
End Service.

(** What no handler is written to change in a stored record. *)
Definition identity_of (d : Doc)
  : string * string * string * option string * option string * datetime :=
  (_id d, image_name d, analysis_type d, image_url d, image_base64 d,
   created_at d).

(** ** Lenient base64 *)

(** The characters the decoding loop looks at: the alphabet and the padding
    character. *)
Definition is_significant (c : ascii) : bool :=
  Ascii.eqb c BASE64_PAD || is_b64_alphabet c.

Fixpoint strip_junk (s : string) : string :=
  match s with
  | EmptyString => EmptyString
  | String c rest =>
      if is_significant c then String c (strip_junk rest) else strip_junk rest
  end.

Fixpoint ends_with_pad (s : string) : bool :=
  match s with
  | EmptyString => false
  | String c EmptyString => Ascii.eqb c BASE64_PAD
  | String _ rest => ends_with_pad rest
  end.

(** ** What the pattern [\{[^}]+\}] matches *)

Definition no_close (s : string) : bool :=
  string_forallb (fun c => negb (Ascii.eqb c "}")) s.

(** [s] holds a match of the pattern that starts after [pre]: an opening
    brace, the non-empty run [body] of characters other than a closing
    brace, and a closing brace. *)
Definition brace_match (s pre body post : string) : Prop :=
  s = pre +:+ String "{" (body +:+ String "}" post)
  /\ body <> "" /\ no_close body = true.

(** ** What the detection handler reads in a reply *)

(** [result.get("result", result.get("content", "{}"))] on a reply that is
    an object: the value under "result", else the one under "content", else
    the text "{}". *)
Definition reply_content (kv : list (string * json)) : json :=
  match assoc_get "result" kv with
  | Some v => v
  | None =>
      match assoc_get "content" kv with
      | Some v => v
      | None => JStr "{}"
      end
  end.


(** A sample matcher for the search handler: the pattern is taken literally
    and must equal the name (enough to run the handler). *)
Definition literal_regex (pattern : string) : result (string -> bool) :=
  Ok (String.eqb pattern).

(** * Verified properties *)

(** ** The monad's equations *)

Lemma bind_ok {A B} (m : M A) (k : A -> M B) w a w' :
  m w = (Ok a, w') -> bind m k w = k a w'.
Proof. intros H. unfold bind. now rewrite H. Qed.

Lemma bind_raise {A B} (m : M A) (k : A -> M B) w e w' :
  m w = (Raise e, w') -> bind m k w = (Raise e, w').
Proof. intros H. unfold bind. now rewrite H. Qed.

Lemma try_except_ok {A} (m : M A) h w a w' :
  m w = (Ok a, w') -> try_except m h w = (Ok a, w').
Proof. intros H. unfold try_except. now rewrite H. Qed.

Lemma try_except_raise {A} (m : M A) h w e w' :
  m w = (Raise e, w') -> try_except m h w = h e w'.
Proof. intros H. unfold try_except. now rewrite H. Qed.

(** A response model changes nothing in a request that fails: what is
    stated below of a failure answered through [serve] holds as well of the
    route with its response model. *)
Lemma serve_model_error {A B} (model : A -> option B) (h : M A) w s d :
  fst (serve h w) = HttpError s d ->
  serve_model model h w = (HttpError s d, snd (serve h w)).
Proof.
  unfold serve, serve_model. destruct (h w) as [[a|e] w']; cbn.
  - discriminate.
  - destruct e; cbn; intros [= <- <-]; reflexivity.
Qed.

(** A model that accepts everything is no model. *)
Lemma serve_model_Some {A} (h : M A) w : serve_model Some h w = serve h w.
Proof. unfold serve, serve_model. now destruct (h w) as [[a|e] w']. Qed.

Lemma select_server_up w : reachable w = true -> select_server w = (Ok tt, w).
Proof. intros H. unfold select_server. now rewrite H. Qed.

Lemma select_server_down w :
  reachable w = false -> select_server w = (Raise ServerSelectionTimeoutError, w).
Proof. intros H. unfold select_server. now rewrite H. Qed.

Lemma find_one_up q w :
  reachable w = true -> find_one q w = (Ok (List.find q (docs w)), w).
Proof. intros H. unfold find_one. now rewrite (bind_ok _ _ _ _ _ (select_server_up w H)). Qed.

Lemma find_one_down q w :
  reachable w = false -> find_one q w = (Raise ServerSelectionTimeoutError, w).
Proof. intros H. unfold find_one. now rewrite (bind_raise _ _ _ _ _ (select_server_down w H)). Qed.

(** ** The upsert handler *)

(** Whatever the request and the world, the upsert fails with status 500
    and leaves the world as it was: either no server is reachable, or the
    lookup of [timezone] on the class [datetime] raises. *)
Lemma create_or_update_always_500 analysis w :
  exists detail,
    create_or_update_image_analysis analysis w = (Raise (HTTPException 500 detail), w).
Proof.
  unfold create_or_update_image_analysis.
  destruct (reachable w) eqn:Hup.
  - eexists. erewrite try_except_raise; [reflexivity|].
    unfold get_collection. cbn [bind ret].
    rewrite (bind_ok _ _ _ _ _ (find_one_up _ w Hup)).
    reflexivity.
  - eexists. erewrite try_except_raise; [reflexivity|].
    unfold get_collection. cbn [bind ret].
    rewrite (bind_raise _ _ _ _ _ (find_one_down _ w Hup)).
    reflexivity.
Qed.

(** C1 (as the code runs): two calls of the upsert handler with the same
    (image_name, analysis_type) and different descriptions both answer 500,
    and the collection afterwards is the collection before: no record is
    created or updated under the key. *)
Theorem upsert_twice_changes_nothing (a1 a2 : ImageAnalysisRequest) (w : World) :
  let '(r1, w1) := serve (create_or_update_image_analysis a1) w in
  let '(r2, w2) := serve (create_or_update_image_analysis a2) w1 in
  status_of r1 = 500%Z /\ status_of r2 = 500%Z /\ docs w2 = docs w.
Proof.
  unfold serve.
  destruct (create_or_update_always_500 a1 w) as [d1 ->].
  destruct (create_or_update_always_500 a2 w) as [d2 ->].
  cbn. auto.
Qed.

(** On an empty, reachable collection the two calls leave no record under
    the key, where one with the later descriptions was expected. *)
Example upsert_twice_on_empty_store :
  let w := sample_world true [] 0 in
  let '(r1, w1) := serve (create_or_update_image_analysis (sample_request ["first"])) w in
  let '(r2, w2) := serve (create_or_update_image_analysis (sample_request ["second"])) w1 in
  r2 = HttpError 500
         "Failed to save or update analysis: type object 'datetime.datetime' has no attribute 'timezone'"
  /\ List.filter (by_name_and_type (sample_request ["second"])) (docs w2) = [].
Proof. vm_compute. auto. Qed.

(** The router never reaches the upsert: the first handler registered for
    the route is [create_image_analysis]. *)
Lemma post_image_analysis_is_create :
  dispatch_post_image_analysis = Some CreateImageAnalysis.
Proof. reflexivity. Qed.

(** ** Get by id *)

Lemma ObjectId_valid s w :
  is_valid_oid s = true -> ObjectId s w = (Ok (string_map lower_hex s), w).
Proof. intros H. unfold ObjectId. now rewrite H. Qed.

Lemma ObjectId_invalid s w :
  is_valid_oid s = false -> ObjectId s w = (Raise (InvalidId s), w).
Proof. intros H. unfold ObjectId. now rewrite H. Qed.

(** The handler never answers 404: its own "not found" exception is raised
    inside the [try] and caught by the [except Exception] below it. *)
Lemma get_analysis_by_id_never_404 analysis_id w :
  status_of (fst (serve (get_analysis_by_id analysis_id) w)) <> 404%Z.
Proof.
  unfold serve, get_analysis_by_id, try_except, get_collection.
  cbn [bind ret].
  unfold bind at 1.
  destruct (is_valid_oid analysis_id) eqn:Hv.
  - rewrite (ObjectId_valid _ _ Hv).
    unfold bind. destruct (reachable w) eqn:Hup.
    + rewrite (find_one_up _ _ Hup).
      destruct (List.find _ (docs w)); cbn; discriminate.
    + rewrite (find_one_down _ _ Hup). cbn. discriminate.
  - rewrite (ObjectId_invalid _ _ Hv). cbn. discriminate.
Qed.

(** A malformed identifier is answered with 500. *)
Lemma get_analysis_by_id_malformed analysis_id w :
  is_valid_oid analysis_id = false ->
  serve (get_analysis_by_id analysis_id) w =
    (HttpError 500 ("Failed to retrieve analysis: " +:+ exn_str (InvalidId analysis_id)), w).
Proof.
  intros Hv.
  unfold serve, get_analysis_by_id, try_except, get_collection.
  cbn [bind ret]. unfold bind at 1.
  now rewrite (ObjectId_invalid _ _ Hv).
Qed.

(** C2 (as the code runs): a well-formed identifier that matches no record
    of a reachable collection is answered with 500, whose detail quotes the
    404 that was raised and caught; the world is unchanged. *)
Theorem get_analysis_by_id_absent_is_500 (analysis_id : string) (w : World) :
  is_valid_oid analysis_id = true ->
  reachable w = true ->
  List.find (by_id (string_map lower_hex analysis_id)) (docs w) = None ->
  serve (get_analysis_by_id analysis_id) w =
    (HttpError 500 "Failed to retrieve analysis: 404: Analysis not found", w).
Proof.
  intros Hv Hup Hnone.
  unfold serve, get_analysis_by_id, try_except, get_collection.
  cbn [bind ret]. unfold bind at 1.
  rewrite (ObjectId_valid _ _ Hv).
  unfold bind. rewrite (find_one_up _ _ Hup), Hnone.
  reflexivity.
Qed.

Lemma get_analysis_by_id_absent_is_500_witness :
  serve (get_analysis_by_id "000000000000000000000000")
        (sample_world true [starry_night] 0) =
    (HttpError 500 "Failed to retrieve analysis: 404: Analysis not found",
     sample_world true [starry_night] 0).
Proof.
  apply (get_analysis_by_id_absent_is_500 "000000000000000000000000"
           (sample_world true [starry_night] 0)); reflexivity.
Defined.

(** ** Create *)

(** C3 (as the code runs): whatever the request and whether or not the
    store is reachable, [create_image_analysis] raises [UnboundLocalError]
    on its first use of [datetime] (line 151), before the [try] that holds
    the mock-identifier fallback; the caller gets a 500, and nothing is
    returned or stored. *)
Theorem create_image_analysis_fails (timestamp_repr : datetime -> string)
    (analysis : ImageAnalysisRequest) (w : World) :
  create_image_analysis timestamp_repr analysis w
    = (Raise (UnboundLocalError "datetime"), w)
  /\ serve (create_image_analysis timestamp_repr analysis) w
    = (HttpError 500 "Internal Server Error", w).
Proof. split; reflexivity. Qed.

(** With the store unreachable: the outcome on a concrete request. *)
Example create_with_store_down :
  serve (create_image_analysis (fun _ => "1704110400.0") (sample_request ["a"]))
        (sample_world false [] 0)
  = (HttpError 500 "Internal Server Error", sample_world false [] 0).
Proof. reflexivity. Qed.

(** C5 (as the code runs): [create_image_analysis] returns no record: its
    outcome is the exception raised at line 151, so no pair of [created_at]
    and [updated_at] is ever returned by it. *)
Theorem create_image_analysis_returns_no_record
    (timestamp_repr : datetime -> string) (analysis : ImageAnalysisRequest)
    (w : World) :
  exists e, fst (create_image_analysis timestamp_repr analysis w) = Raise e.
Proof. eexists. reflexivity. Qed.
(** ** Detect *)

Lemma read_only_ret {A} (a : A) : read_only (ret a).
Proof. intros w. reflexivity. Qed.

Lemma read_only_raise {A} e : read_only (@raise A e).
Proof. intros w. reflexivity. Qed.

Lemma read_only_bind {A B} (m : M A) (k : A -> M B) :
  read_only m -> (forall a, read_only (k a)) -> read_only (bind m k).
Proof.
  intros Hm Hk w. unfold bind. specialize (Hm w).
  destruct (m w) as [[a|e] w']; cbn in Hm; subst w'; [apply Hk | reflexivity].
Qed.

Lemma read_only_dict_get obj key default : read_only (dict_get obj key default).
Proof. destruct obj; intros w; reflexivity. Qed.

Create HintDb read_only.
#[local] Hint Resolve read_only_ret read_only_raise read_only_dict_get : read_only.

Section DetectProofs.
Variable json_loads : string -> option json.
Variable validate_str : json -> option string.
Variable validate_float : json -> option Q.
Variable py_str : json -> string.

Lemma read_only_make_response t d c :
  read_only (make_response validate_str validate_float t d c).
Proof.
  unfold make_response.
  destruct (validate_str t), (validate_str d), (validate_float c);
    auto with read_only.
Qed.

Lemma read_only_parse_detection reply :
  read_only (parse_detection json_loads validate_str validate_float reply).
Proof.
  unfold parse_detection.
  repeat (apply read_only_bind; [auto with read_only | intros]).
  - destruct a0; auto with read_only.
    destruct (re_search_braces s); auto with read_only.
    destruct (json_loads s0); auto with read_only.
  - apply read_only_make_response.
Qed.

Lemma parse_detection_world reply w :
  parse_detection json_loads validate_str validate_float reply w
  = (fst (parse_detection json_loads validate_str validate_float reply w), w).
Proof.
  pose proof (read_only_parse_detection reply w) as H.
  destruct (parse_detection _ _ _ reply w) as [r w']. cbn in *. now subst.
Qed.

End DetectProofs.


(** A reply that is not a JSON object, and a reply whose text holds a
    brace-delimited part that is not JSON, are among the failures. *)
Lemma reply_not_a_dict_is_failure json_loads validate_str validate_float w status reply :
  overshoot w = PostResponse true status (Some reply) ->
  (forall kv, reply <> JDict kv) ->
  detect_failure json_loads validate_str validate_float w.
Proof.
  intros Hpost Hshape.
  apply (MalformedReply _ _ _ w status reply
           (AttributeError "object has no attribute 'get'") Hpost).
  destruct reply; try reflexivity. now destruct (Hshape kv).
Qed.

(** A free-text reply with no brace-delimited part is not a failure: it is
    passed on as the description with the default confidence 50. *)
Example detect_free_text_reply :
  fst (detect_artwork loads_nothing only_str only_num repr_opaque "http://x/a.jpg"
         (with_overshoot
            (PostResponse true 200 (Some (JDict [("result", JStr "a night sky")])))
            "key" (sample_world true [] 0)))
  = Ok {| title := ""; description := "a night sky"; confidence := Q50 |}.
Proof. vm_compute. reflexivity. Qed.

(** A timeout, with the API key configured. *)
Example detect_timeout :
  fst (detect_artwork loads_nothing only_str only_num repr_opaque "http://x/a.jpg"
         (with_overshoot (PostRaises (RequestException "Read timed out"))
            "key" (sample_world true [] 0)))
  = Ok {| title := ""; description := "Detection unavailable"; confidence := Q0 |}.
Proof. vm_compute. reflexivity. Qed.

(** ** Update *)

Lemma update_first_found query set ds d :
  List.find query ds = Some d ->
  query (set d) = true ->
  exists ds',
    update_first query set ds = (ds', 1%nat)
    /\ List.find query ds' = Some (set d)
    /\ length ds' = length ds.
Proof.
  induction ds as [|x rest IH]; cbn; [discriminate|].
  intros Hfind Hset. destruct (query x) eqn:Hq.
  - injection Hfind as ->. exists (set d :: rest). cbn. now rewrite Hset.
  - destruct (IH Hfind Hset) as (ds' & -> & Hf & Hl).
    exists (x :: ds'). cbn. rewrite Hq. auto.
Qed.

Lemma update_first_none query set ds :
  List.find query ds = None -> update_first query set ds = (ds, O).
Proof.
  induction ds as [|x rest IH]; cbn; [reflexivity|].
  destruct (query x); [discriminate|]. intros H. now rewrite (IH H).
Qed.

(** A [$set] that writes the values a document already has leaves the
    collection as it was. *)
Lemma update_first_same query set ds d :
  List.find query ds = Some d ->
  set d = d ->
  fst (update_first query set ds) = ds.
Proof.
  induction ds as [|x rest IH]; cbn; [discriminate|].
  intros Hfind Hset. destruct (query x) eqn:Hq.
  - injection Hfind as ->. cbn. now rewrite Hset.
  - specialize (IH Hfind Hset).
    destruct (update_first query set rest) as [rest' n]. cbn in *. now rewrite IH.
Qed.

Lemma by_id_apply_update oid updated update_data d :
  by_id oid (apply_update updated update_data d) = by_id oid d.
Proof. reflexivity. Qed.

Lemma utcnow_reads w :
  utcnow w = (Ok (clock w (ticks w)), with_ticks (S (ticks w)) w).
Proof. reflexivity. Qed.

Lemma update_one_up query set w ds n :
  reachable w = true ->
  update_first query set (docs w) = (ds, n) ->
  update_one query set w = (Ok n, with_docs ds w).
Proof.
  intros Hup Hupd. unfold update_one.
  rewrite (bind_ok _ _ _ _ _ (select_server_up w Hup)). now rewrite Hupd.
Qed.

(** One step of a handler whose first computation is known. *)
Ltac step H := rewrite (bind_ok _ _ _ _ _ H).

(** What a PUT on an existing record does: the first record with the
    identifier gets the [$set], and the handler returns it serialized. *)
Lemma update_analysis_existing analysis_id update_data w d :
  is_valid_oid analysis_id = true ->
  reachable w = true ->
  List.find (by_id (string_map lower_hex analysis_id)) (docs w) = Some d ->
  exists w',
    update_analysis analysis_id update_data w
      = (Ok (Some (serialize (apply_update (clock w (ticks w)) update_data d))), w')
    /\ List.find (by_id (string_map lower_hex analysis_id)) (docs w')
      = Some (apply_update (clock w (ticks w)) update_data d)
    /\ length (docs w') = length (docs w)
    /\ docs w'
      = fst (update_first (by_id (string_map lower_hex analysis_id))
               (apply_update (clock w (ticks w)) update_data) (docs w)).
Proof.
  intros Hv Hup Hfind.
  set (oid := string_map lower_hex analysis_id) in *.
  set (t := clock w (ticks w)).
  assert (Hq : by_id oid (apply_update t update_data d) = true).
  { rewrite by_id_apply_update. now apply find_some in Hfind. }
  destruct (update_first_found _ (apply_update t update_data) _ _ Hfind Hq)
    as (ds' & Hupd & Hfind' & Hlen).
  set (w1 := with_ticks (S (ticks w)) w).
  exists (with_docs ds' w1).
  split; [| split; [exact Hfind' | split; [exact Hlen | now rewrite Hupd]]].
  unfold update_analysis, get_collection.
  erewrite try_except_ok; [reflexivity |].
  step (eq_refl : ret tt w = (Ok tt, w)).
  step (utcnow_reads w). fold t w1.
  step (ObjectId_valid _ w1 Hv). fold oid.
  step (update_one_up (by_id oid) (apply_update t update_data) w1 ds' 1 Hup Hupd).
  cbn [Nat.eqb].
  step (ObjectId_valid _ (with_docs ds' w1) Hv). fold oid.
  step (find_one_up (by_id oid) (with_docs ds' w1) Hup).
  cbn [docs with_docs]. rewrite Hfind'. reflexivity.
Qed.




(** The same with a clock that has moved on, but not by a millisecond. *)
Example update_within_the_millisecond :
  let w := sample_world true [starry_night] 5 in
  let '(r, w') :=
    update_analysis "65a1b2c3d4e5f60718293a4b"
      {| up_descriptions := None; up_metadata := Some [("room", JStr "12")] |} w in
  exists d',
    List.find (by_id "65a1b2c3d4e5f60718293a4b") (docs w') = Some d'
    /\ r = Ok (Some (serialize d'))
    /\ metadata d' = [("room", JStr "12")]
    /\ updated_at d' = updated_at starry_night.
Proof. vm_compute. eexists. repeat split. Qed.

(** C10 (amended): a PUT with an empty body on an existing record sets its
    [updated_at] to the reading of the clock taken by the handler, cut to
    the millisecond as the store keeps it, and leaves every other field
    alone; the collection is no longer what it was when that value differs
    from the stored one, and is exactly what it was when they are equal. *)
Theorem update_empty_body_refreshes_updated_at (analysis_id : string)
    (w : World) (d : Doc) :
  is_valid_oid analysis_id = true ->
  reachable w = true ->
  List.find (by_id (string_map lower_hex analysis_id)) (docs w) = Some d ->
  exists d' w',
    update_analysis analysis_id {| up_descriptions := None; up_metadata := None |} w
      = (Ok (Some (serialize d')), w')
    /\ List.find (by_id (string_map lower_hex analysis_id)) (docs w') = Some d'
    /\ updated_at d' = bson_datetime (clock w (ticks w))
    /\ (_id d', image_name d', analysis_type d', descriptions d', metadata d',
        image_url d', image_base64 d', created_at d')
       = (_id d, image_name d, analysis_type d, descriptions d, metadata d,
          image_url d, image_base64 d, created_at d)
    /\ (updated_at d <> bson_datetime (clock w (ticks w)) -> docs w' <> docs w)
    /\ (updated_at d = bson_datetime (clock w (ticks w)) -> docs w' = docs w).
Proof.
  intros Hv Hup Hfind.
  destruct (update_analysis_existing analysis_id
              {| up_descriptions := None; up_metadata := None |} w d Hv Hup Hfind)
    as (w' & Hrun & Hfind' & _ & Hdocs).
  eexists; exists w'. split; [exact Hrun |]. split; [exact Hfind' |].
  split; [reflexivity |]. split; [reflexivity |]. split.
  - intros Hne Hsame. rewrite Hsame, Hfind in Hfind'.
    injection Hfind' as Hd. apply Hne. now rewrite Hd at 1.
  - intros Hsame. rewrite Hdocs.
    apply (update_first_same _ _ _ _ Hfind).
    destruct d as [i n t ds md u b c up]. cbn in Hsame. now subst up.
Qed.

Lemma update_empty_body_refreshes_updated_at_witness :
  exists d' w',
    update_analysis "65a1b2c3d4e5f60718293a4b"
      {| up_descriptions := None; up_metadata := None |}
      (sample_world true [starry_night] 7250)
      = (Ok (Some (serialize d')), w')
    /\ updated_at d' = noon 7000
    /\ docs w' <> [starry_night].
Proof.
  destruct (update_empty_body_refreshes_updated_at "65a1b2c3d4e5f60718293a4b"
              (sample_world true [starry_night] 7250) starry_night
              eq_refl eq_refl eq_refl)
    as (d' & w' & Hrun & _ & Hupd & _ & Hchanged & _).
  exists d', w'. split; [exact Hrun |]. split; [exact Hupd |].
  apply Hchanged. discriminate.
Defined.

(** C10 as stated fails: an empty PUT whose clock reading falls in the
    millisecond of the stored [updated_at] is answered with the record and
    leaves the stored record exactly as it was. *)
Lemma update_empty_body_same_millisecond :
  let w := sample_world true [starry_night] 7 in
  let '(r, w') :=
    update_analysis "65a1b2c3d4e5f60718293a4b"
      {| up_descriptions := None; up_metadata := None |} w in
  r = Ok (Some (serialize starry_night))
  /\ clock w (ticks w) = noon 7
  /\ docs w' = docs w.
Proof. vm_compute. repeat split. Qed.

(** ** List *)









Lemma length_cursor_limit limit ds :
  (0 < limit)%Z -> (Z.of_nat (length (cursor_limit limit ds)) <= limit)%Z.
Proof.
  intros Hpos. unfold cursor_limit.
  destruct (Z.eqb_spec limit 0); [lia|].
  rewrite length_firstn. lia.
Qed.










(** On that world the request returns the newer of the two museum records,
    and the body sent has the fields of the response model. *)
Example list_museum_limit_1 :
  serve_model validate_list (get_all_analyses_request (Some "museum") (Some 1%Z))
    (sample_world true [starry_night; street_sign; mona_lisa] 0)
  = (Http200
       [ {| m_id := "65a1b2c3d4e5f60718293a4c";
            m_image_name := "mona_lisa.jpg";
            m_analysis_type := "museum";
            m_descriptions := ["A portrait of a woman"];
            m_metadata := [];
            m_created_at := "2024-01-01T12:00:00.030000";
            m_updated_at := "2024-01-01T12:00:00.030000" |} ],
     sample_world true [starry_night; street_sign; mona_lisa] 0).
Proof. vm_compute. reflexivity. Qed.

(** One record without descriptions among those returned, and the whole
    List request is answered with 500. *)
Example list_with_a_record_without_descriptions :
  fst (serve_model validate_list (get_all_analyses_request None None)
         (sample_world true [starry_night; untitled_sketch; mona_lisa] 0))
  = HttpError 500 "Internal Server Error".
Proof. vm_compute. reflexivity. Qed.


(** ** Base64 *)

Lemma In_below n x : x < N.of_nat n -> In x (below n).
Proof.
  intros H. unfold below. apply in_map_iff.
  exists (N.to_nat x). split; [apply N2Nat.id | apply in_seq; lia].
Qed.

Lemma forall_below2 (P : N -> N -> bool) n m :
  forallb (fun a => forallb (P a) (below m)) (below n) = true ->
  forall a b, a < N.of_nat n -> b < N.of_nat m -> P a b = true.
Proof.
  intros H a b Ha Hb.
  rewrite forallb_forall in H. specialize (H a (In_below _ _ Ha)).
  rewrite forallb_forall in H. exact (H b (In_below _ _ Hb)).
Qed.

Lemma sextets_agree_all v w : v < 64 -> w < 64 -> sextets_agree v w = true.
Proof.
  apply (forall_below2 sextets_agree 64 64). vm_compute. reflexivity.
Qed.

Lemma a2b_lt c v : a2b c = Some v -> v < 64.
Proof.
  unfold a2b. intros H.
  repeat match type of H with
  | (if ?b then _ else _) = _ => destruct b eqn:?
  end; inversion H; subst; clear H;
  repeat match goal with
  | H : (_ && _) = true |- _ => apply andb_prop in H as [? ?]
  | H : (_ <=? _) = true |- _ => apply N.leb_le in H
  end; lia.
Qed.

Lemma a2b_not_pad c v : a2b c = Some v -> Ascii.eqb c BASE64_PAD = false.
Proof.
  intros H. destruct (Ascii.eqb_spec c BASE64_PAD) as [->|]; [|reflexivity].
  discriminate H.
Qed.

Lemma a2b_ascii c v : a2b c = Some v -> (N_of_ascii c <? 128) = true.
Proof.
  unfold a2b. intros H. apply N.ltb_lt.
  repeat match type of H with
  | (if ?b then _ else _) = _ => destruct b eqn:?
  end; try discriminate;
  repeat match goal with
  | H : (_ && _) = true |- _ => apply andb_prop in H as [? ?]
  | H : (_ <=? _) = true |- _ => apply N.leb_le in H
  | H : (_ =? _) = true |- _ => apply N.eqb_eq in H
  end; lia.
Qed.

Lemma rfc4648_decode_sound s bs : rfc4648_decode s = Some bs -> rfc4648 s bs.
Proof.
  remember (String.length s) as n eqn:Hn.
  revert s bs Hn. induction n as [n IH] using lt_wf_ind. intros s bs Hn H.
  destruct s as [|c0 [|c1 [|c2 [|c3 rest]]]]; try discriminate H.
  - injection H as <-. constructor.
  - cbn [rfc4648_decode] in H.
    destruct (a2b c0) as [v0|] eqn:H0; [|discriminate].
    destruct (a2b c1) as [v1|] eqn:H1; [|discriminate].
    destruct (Ascii.eqb_spec c2 BASE64_PAD) as [->|Hc2].
    + destruct (Ascii.eqb_spec c3 BASE64_PAD) as [->|Hc3]; [|discriminate].
      destruct rest; [|discriminate]. injection H as <-. now constructor.
    + destruct (a2b c2) as [v2|] eqn:H2; [|discriminate].
      destruct (Ascii.eqb_spec c3 BASE64_PAD) as [->|Hc3].
      * destruct rest; [|discriminate]. injection H as <-. now constructor.
      * destruct (a2b c3) as [v3|] eqn:H3; [|discriminate].
        destruct (rfc4648_decode rest) as [bs'|] eqn:Hrest; [|discriminate].
        injection H as <-. constructor; auto.
        eapply (IH (String.length rest)); [|reflexivity|exact Hrest].
        subst n. cbn. lia.
Qed.

Lemma rfc4648_decode_complete s bs : rfc4648 s bs -> rfc4648_decode s = Some bs.
Proof.
  induction 1 as [|c0 c1 v0 v1 H0 H1|c0 c1 c2 v0 v1 v2 H0 H1 H2
                  |c0 c1 c2 c3 v0 v1 v2 v3 rest bs H0 H1 H2 H3 Hrest IH];
    cbn [rfc4648_decode]; [reflexivity| | |].
  - now rewrite H0, H1.
  - rewrite H0, H1, (a2b_not_pad _ _ H2), H2. reflexivity.
  - rewrite H0, H1, (a2b_not_pad _ _ H2), H2, (a2b_not_pad _ _ H3), H3, IH.
    reflexivity.
Qed.

(** On a well-formed string the lenient loop of [binascii] computes the
    RFC's bytes. *)
Lemma a2b_base64_loop_rfc4648 s bs :
  rfc4648 s bs -> forall out, a2b_base64_loop s 0 0 0 out = Ok (out ++ bs)%list.
Proof.
  induction 1 as [|c0 c1 v0 v1 H0 H1|c0 c1 c2 v0 v1 v2 H0 H1 H2
                  |c0 c1 c2 c3 v0 v1 v2 v3 rest bs H0 H1 H2 H3 Hrest IH];
    intros out.
  - cbn. now rewrite app_nil_r.
  - pose proof (sextets_agree_all v0 v1 (a2b_lt _ _ H0) (a2b_lt _ _ H1)) as Hs.
    unfold sextets_agree in Hs. apply andb_prop in Hs as [Hs _].
    apply andb_prop in Hs as [Hs _]. apply N.eqb_eq in Hs.
    cbn [a2b_base64_loop].
    rewrite (a2b_not_pad _ _ H0), H0, (a2b_not_pad _ _ H1), H1.
    cbn. now rewrite Hs.
  - pose proof (sextets_agree_all v0 v1 (a2b_lt _ _ H0) (a2b_lt _ _ H1)) as Hs.
    pose proof (sextets_agree_all v1 v2 (a2b_lt _ _ H1) (a2b_lt _ _ H2)) as Ht.
    unfold sextets_agree in Hs, Ht.
    apply andb_prop in Hs as [Hs _]. apply andb_prop in Hs as [Hs _].
    apply andb_prop in Ht as [Ht _]. apply andb_prop in Ht as [_ Ht].
    apply N.eqb_eq in Hs, Ht.
    cbn [a2b_base64_loop].
    rewrite (a2b_not_pad _ _ H0), H0, (a2b_not_pad _ _ H1), H1,
      (a2b_not_pad _ _ H2), H2.
    cbn. rewrite Hs, Ht, <- app_assoc. reflexivity.
  - pose proof (sextets_agree_all v0 v1 (a2b_lt _ _ H0) (a2b_lt _ _ H1)) as Hs.
    pose proof (sextets_agree_all v1 v2 (a2b_lt _ _ H1) (a2b_lt _ _ H2)) as Ht.
    pose proof (sextets_agree_all v2 v3 (a2b_lt _ _ H2) (a2b_lt _ _ H3)) as Hu.
    unfold sextets_agree in Hs, Ht, Hu.
    apply andb_prop in Hs as [Hs _]. apply andb_prop in Hs as [Hs _].
    apply andb_prop in Ht as [Ht _]. apply andb_prop in Ht as [_ Ht].
    apply andb_prop in Hu as [_ Hu].
    apply N.eqb_eq in Hs, Ht, Hu.
    cbn [a2b_base64_loop].
    rewrite (a2b_not_pad _ _ H0), H0, (a2b_not_pad _ _ H1), H1,
      (a2b_not_pad _ _ H2), H2, (a2b_not_pad _ _ H3), H3.
    rewrite Hs, Ht, Hu, IH, <- !app_assoc. reflexivity.
Qed.

Lemma bytes_agree_all b c : b < 256 -> c < 256 -> bytes_agree b c = true.
Proof.
  apply (forall_below2 bytes_agree 256 256). vm_compute. reflexivity.
Qed.

Lemma reads_back_a2b v : reads_back v = true -> a2b (b2a v) = Some v.
Proof.
  unfold reads_back. destruct (a2b (b2a v)) as [v'|]; [|discriminate].
  intros H. apply N.eqb_eq in H. now subst.
Qed.

Lemma bytes_agree_facts b c :
  b < 256 -> c < 256 ->
  let s0 := N.shiftr b 2 in
  let s1 := N.lor (N.shiftl (N.land b 3) 4) (N.shiftr c 4) in
  let s1_last := N.shiftl (N.land b 3) 4 in
  let s2 := N.lor (N.shiftl (N.land b 15) 2) (N.shiftr c 6) in
  let s2_last := N.shiftl (N.land b 15) 2 in
  let s3 := N.land c 63 in
  (a2b (b2a s0) = Some s0 /\ a2b (b2a s1) = Some s1
   /\ a2b (b2a s1_last) = Some s1_last /\ a2b (b2a s2) = Some s2
   /\ a2b (b2a s2_last) = Some s2_last /\ a2b (b2a s3) = Some s3)
  /\ s0 * 4 + s1 / 16 = b /\ s0 * 4 + s1_last / 16 = b
  /\ s1 mod 16 = c / 16 /\ s2 / 4 = b mod 16 /\ s2_last / 4 = b mod 16
  /\ (s2 mod 4) * 64 + s3 = c.
Proof.
  intros Hb Hc. pose proof (bytes_agree_all b c Hb Hc) as H.
  unfold bytes_agree in H. cbv zeta in *.
  repeat match type of H with
  | (_ && _) = true => let H' := fresh "Hc" in apply andb_prop in H as [H H']
  end.
  repeat match goal with
  | H : reads_back _ = true |- _ => apply reads_back_a2b in H
  | H : (_ =? _) = true |- _ => apply N.eqb_eq in H
  end.
  tauto.
Qed.

(** Every list of bytes is the meaning of its encoding. *)
Lemma rfc4648_b64encode bs :
  Forall (fun b => b < 256) bs -> rfc4648 (b64encode bs) bs.
Proof.
  remember (length bs) as n eqn:Hn.
  revert bs Hn. induction n as [n IH] using lt_wf_ind. intros bs Hn Hbytes.
  destruct bs as [|b0 [|b1 [|b2 rest]]].
  - constructor.
  - apply Forall_cons_1 in Hbytes as [Hb0 _].
    destruct (bytes_agree_facts b0 0 Hb0 eq_refl)
      as ((H0 & _ & H1 & _) & _ & Hbyte & _).
    cbv zeta in *. cbn [b64encode]. rewrite <- Hbyte at 3.
    now apply rfc4648_one_byte.
  - apply Forall_cons_1 in Hbytes as [Hb0 Hbytes].
    apply Forall_cons_1 in Hbytes as [Hb1 _].
    destruct (bytes_agree_facts b0 b1 Hb0 Hb1)
      as ((H0 & H1 & _) & Hbyte0 & _ & Hhi & _).
    destruct (bytes_agree_facts b1 0 Hb1 eq_refl)
      as ((_ & _ & _ & _ & H2 & _) & _ & _ & _ & _ & Hlo & _).
    cbv zeta in *. cbn [b64encode].
    rewrite <- Hbyte0 at 3.
    replace [N.shiftr b0 2 * 4
             + N.lor (N.shiftl (N.land b0 3) 4) (N.shiftr b1 4) / 16; b1]
      with [N.shiftr b0 2 * 4
             + N.lor (N.shiftl (N.land b0 3) 4) (N.shiftr b1 4) / 16;
            (N.lor (N.shiftl (N.land b0 3) 4) (N.shiftr b1 4) mod 16) * 16
            + N.shiftl (N.land b1 15) 2 / 4].
    + now apply rfc4648_two_bytes.
    + rewrite Hhi, Hlo. do 2 f_equal.
      rewrite (N.div_mod b1 16) at 3 by lia. lia.
  - apply Forall_cons_1 in Hbytes as [Hb0 Hbytes].
    apply Forall_cons_1 in Hbytes as [Hb1 Hbytes].
    apply Forall_cons_1 in Hbytes as [Hb2 Hrest].
    destruct (bytes_agree_facts b0 b1 Hb0 Hb1)
      as ((H0 & H1 & _) & Hbyte0 & _ & Hhi & _).
    destruct (bytes_agree_facts b1 b2 Hb1 Hb2)
      as ((_ & _ & _ & H2 & _ & H3) & _ & _ & _ & Hlo & _ & Hbyte2).
    cbv zeta in *. cbn [b64encode].
    assert (Hbyte1 :
      (N.lor (N.shiftl (N.land b0 3) 4) (N.shiftr b1 4) mod 16) * 16
      + N.lor (N.shiftl (N.land b1 15) 2) (N.shiftr b2 6) / 4 = b1).
    { rewrite Hhi, Hlo. rewrite (N.div_mod b1 16) at 3 by lia. lia. }
    rewrite <- Hbyte0 at 3. rewrite <- Hbyte1 at 4. rewrite <- Hbyte2 at 4.
    apply rfc4648_group; auto.
    apply (IH (length rest)); [subst n; cbn; lia | reflexivity | exact Hrest].
Qed.

Lemma b64encode_decodes bs :
  Forall (fun b => b < 256) bs -> rfc4648_decode (b64encode bs) = Some bs.
Proof. intros H. now apply rfc4648_decode_complete, rfc4648_b64encode. Qed.

Lemma rfc4648_is_ascii s bs : rfc4648 s bs -> is_ascii_str s = true.
Proof.
  induction 1; cbn [is_ascii_str];
    repeat match goal with
    | H : a2b _ = Some _ |- _ => rewrite (a2b_ascii _ _ H); clear H
    end; auto.
Qed.

Lemma b64decode_rfc4648 s bs : rfc4648 s bs -> b64decode s = Ok bs.
Proof.
  intros H. unfold b64decode, a2b_base64.
  rewrite (rfc4648_is_ascii _ _ H). exact (a2b_base64_loop_rfc4648 _ _ H []).
Qed.

Lemma prefix_data_inv s :
  String.prefix "data:" s = true ->
  exists s', s = String "d" (String "a" (String "t" (String "a" (String ":" s')))).
Proof.
  intros H.
  repeat (destruct s as [|? s]; [discriminate H|];
          cbn [String.prefix] in H;
          match type of H with
          | context [ascii_dec ?a ?b] => destruct (ascii_dec a b); [subst|discriminate H]
          end).
  now exists s.
Qed.

Lemma rfc4648_not_data_url s bs : rfc4648 s bs -> String.prefix "data:" s = false.
Proof.
  intros H. destruct (String.prefix "data:" s) eqn:Hp; [|reflexivity].
  apply prefix_data_inv in Hp as [s' ->].
  inversion H as [| | |c0 c1 c2 c3 v0 v1 v2 v3 rest bs' H0 H1 H2 H3 Hrest]; subst.
  inversion Hrest; subst; discriminate.
Qed.

Lemma append_String c s t : String c s +:+ t = String c (s +:+ t).
Proof. reflexivity. Qed.

Lemma append_nil t : "" +:+ t = t.
Proof. reflexivity. Qed.

Lemma prefix_append p s : String.prefix p (p +:+ s) = true.
Proof.
  induction p as [|a p IH]; [now destruct s|].
  change (String.prefix (String a p) (String a p +:+ s))
    with (if ascii_dec a a then String.prefix p (p +:+ s) else false).
  destruct (ascii_dec a a); [exact IH | contradiction].
Qed.

Lemma after_first_comma_append h rest :
  after_first_comma h = None ->
  after_first_comma (h +:+ String "," rest) = Some rest.
Proof.
  induction h as [|c h IH]; [reflexivity|].
  rewrite append_String. cbn [after_first_comma].
  destruct (Ascii.eqb c ","); [discriminate | exact IH].
Qed.

Lemma base64_data_of_data_url header payload :
  after_first_comma header = None ->
  base64_data_of ("data:" +:+ header +:+ "," +:+ payload) = Ok payload.
Proof.
  intros H. unfold base64_data_of.
  rewrite prefix_append.
  change ("data:" +:+ header +:+ "," +:+ payload)
    with (String "d" (String "a" (String "t" (String "a" (String ":"
            (header +:+ String "," payload)))))).
  cbn [after_first_comma Ascii.eqb Bool.eqb]. cbn.
  now rewrite (after_first_comma_append _ _ H).
Qed.

Lemma strip_prefix_append p s : strip_prefix p (p +:+ s) = Some s.
Proof.
  induction p as [|a p IH]; [now destruct s|].
  rewrite append_String. cbn [strip_prefix].
  now rewrite Ascii.eqb_refl.
Qed.

(** What an upload does, by what the payload decodes to. *)
Lemma upload_temp_image_runs image_base64 w :
  match image_bytes_of image_base64 with
  | Ok image_bytes =>
      let image_id := uuid_gen w (uuid_next w) in
      upload_temp_image image_base64 w
      = (Ok {| u_image_url := TEMP_IMAGE_URL +:+ image_id +:+ ".jpg";
               u_image_id := image_id |},
         with_files (<[image_id +:+ ".jpg" := image_bytes]> (files w))
           (with_uuid_next (S (uuid_next w)) w))
  | Raise e =>
      upload_temp_image image_base64 w
      = (Raise (HTTPException 400 ("Failed to upload image: " +:+ exn_str e)), w)
  end.
Proof.
  unfold image_bytes_of, upload_temp_image, try_except, bind, lift.
  destruct (base64_data_of image_base64) as [data|e]; [|reflexivity].
  destruct (b64decode data) as [bytes|e]; reflexivity.
Qed.

Lemma fetch_uploaded image_id image_bytes w :
  fetch (TEMP_IMAGE_URL +:+ image_id +:+ ".jpg")
    (with_files (<[image_id +:+ ".jpg" := image_bytes]> (files w))
       (with_uuid_next (S (uuid_next w)) w))
  = Some image_bytes.
Proof.
  unfold fetch. rewrite strip_prefix_append.
  cbn [files with_files]. apply lookup_insert_eq.
Qed.

(** C8: for every well-formed base64 payload (in the sense of RFC 4648,
    meaning [image_bytes]), sent bare or behind a data-URL header, the upload
    answers with a URL, and a GET on that URL gives exactly [image_bytes]; when
    the payload is the encoding of some bytes, those are the bytes. *)
Theorem upload_roundtrip (payload header image_base64 : string)
    (image_bytes : list N) (w : World) :
  rfc4648_decode payload = Some image_bytes ->
  after_first_comma header = None ->
  image_base64 = payload \/ image_base64 = "data:" +:+ header +:+ "," +:+ payload ->
  exists response w',
    upload_temp_image image_base64 w = (Ok response, w')
    /\ fetch (u_image_url response) w' = Some image_bytes
    /\ (forall bs, Forall (fun b => b < 256) bs -> payload = b64encode bs ->
        image_bytes = bs).
Proof.
  intros Hvalid Hheader Hinput.
  apply rfc4648_decode_sound in Hvalid as Hrfc.
  assert (Hbytes : image_bytes_of image_base64 = Ok image_bytes).
  { unfold image_bytes_of. destruct Hinput as [-> | ->].
    - unfold base64_data_of. rewrite (rfc4648_not_data_url _ _ Hrfc).
      now apply b64decode_rfc4648.
    - rewrite (base64_data_of_data_url _ _ Hheader).
      now apply b64decode_rfc4648. }
  pose proof (upload_temp_image_runs image_base64 w) as Hrun.
  rewrite Hbytes in Hrun. cbv zeta in Hrun.
  eexists; eexists. split; [exact Hrun |]. split.
  - apply fetch_uploaded.
  - intros bs Hbs ->. rewrite (b64encode_decodes _ Hbs) in Hvalid. congruence.
Qed.

Lemma upload_roundtrip_witness :
  exists response w',
    upload_temp_image ("data:image/jpeg;base64," +:+ b64encode [255; 216; 255; 224])
      (sample_world true [] 0) = (Ok response, w')
    /\ fetch (u_image_url response) w' = Some [255; 216; 255; 224].
Proof.
  destruct (upload_roundtrip (b64encode [255; 216; 255; 224]) "image/jpeg;base64"
              ("data:image/jpeg;base64," +:+ b64encode [255; 216; 255; 224])
              [255; 216; 255; 224] (sample_world true [] 0)
              eq_refl eq_refl (or_intror eq_refl))
    as (response & w' & Hrun & Hfetch & _).
  exists response, w'. split; [exact Hrun | exact Hfetch].
Defined.

(** The same upload, evaluated. *)
Example upload_jpeg_header :
  fst (serve (upload_temp_image "data:image/jpeg;base64,/9j/4A==")
         (sample_world true [] 0))
  = Http200
      {| u_image_url :=
           "http://localhost:8000/temp_images/3f2b8c1e-0000-4000-8000-000000000000.jpg";
         u_image_id := "3f2b8c1e-0000-4000-8000-000000000000" |}.
Proof. vm_compute. reflexivity. Qed.

(** ** Upload of what does not decode *)

(** C9 (amended): whenever reading the payload raises (a "data:" prefix
    with no comma after it, a character that is not ASCII, or data characters
    that leave a group of four unfinished) the upload answers 400 with the
    message "Failed to upload image: " followed by the error, and writes
    nothing. *)
Theorem upload_undecodable_is_400 (image_base64 : string) (w : World) (e : exn) :
  image_bytes_of image_base64 = Raise e ->
  serve (upload_temp_image image_base64) w
  = (HttpError 400 ("Failed to upload image: " +:+ exn_str e), w).
Proof.
  intros H. pose proof (upload_temp_image_runs image_base64 w) as Hrun.
  rewrite H in Hrun. unfold serve. now rewrite Hrun.
Qed.

Lemma upload_undecodable_is_400_witness :
  serve (upload_temp_image "abc") (sample_world true [] 0)
  = (HttpError 400 "Failed to upload image: Incorrect padding",
     sample_world true [] 0).
Proof.
  exact (upload_undecodable_is_400 "abc" (sample_world true [] 0)
           incorrect_padding eq_refl).
Defined.

(** A payload with a character outside ASCII is rejected. *)
Lemma not_ascii_raises s :
  is_ascii_str s = false ->
  b64decode s = Raise (ValueError "string argument should contain only ASCII characters").
Proof. intros H. unfold b64decode. now rewrite H. Qed.

(** A "data:" URL without a comma is rejected. *)
Lemma data_url_without_comma_raises s :
  String.prefix "data:" s = true -> after_first_comma s = None ->
  image_bytes_of s = Raise (IndexError "list index out of range").
Proof.
  intros Hp Hc. unfold image_bytes_of, base64_data_of. now rewrite Hp, Hc.
Qed.

(** C9 as stated fails: a payload made of characters outside the base64
    alphabet is malformed (it has no meaning as base64), yet those
    characters are skipped, the upload answers 200 and an empty file is
    written. *)
Lemma upload_malformed_accepted :
  rfc4648_decode "@@@@" = None
  /\ let '(r, w') := serve (upload_temp_image "@@@@") (sample_world true [] 0) in
     status_of r = 200%Z
     /\ files w' !! "3f2b8c1e-0000-4000-8000-000000000000.jpg" = Some [].
Proof. vm_compute. auto. Qed.

(** Another malformed payload that is accepted: a stray character inside
    otherwise good data. *)
Example upload_stray_character :
  rfc4648_decode "ab!cd" = None /\ image_bytes_of "ab!cd" = Ok [105; 183; 29].
Proof. vm_compute. auto. Qed.

Lemma is_b64_alphabet_ascii s :
  string_forallb is_b64_alphabet s = true -> is_ascii_str s = true.
Proof.
  induction s as [|c s IH]; cbn; [reflexivity|].
  intros H. apply andb_prop in H as [Hc Hs].
  unfold is_b64_alphabet in Hc. destruct (a2b c) as [v|] eqn:Hv; [|discriminate].
  now rewrite (a2b_ascii _ _ Hv), IH.
Qed.

(** On unpadded data the loop ends well exactly when the characters fill
    whole groups of four. *)
Lemma a2b_base64_loop_unpadded s :
  string_forallb is_b64_alphabet s = true ->
  forall quad_pos leftchar pads out, (quad_pos < 4)%nat ->
  match a2b_base64_loop s quad_pos leftchar pads out with
  | Ok _ => ((quad_pos + String.length s) mod 4 = 0)%nat
  | Raise _ => ((quad_pos + String.length s) mod 4 <> 0)%nat
  end.
Proof.
  induction s as [|c s IH]; intros Hs q l p out Hq.
  - destruct q as [|[|[|[|q]]]]; cbn; try lia; discriminate.
  - cbn [string_forallb] in Hs. apply andb_prop in Hs as [Hc Hs].
    unfold is_b64_alphabet in Hc. destruct (a2b c) as [v|] eqn:Hv; [|discriminate].
    cbn [a2b_base64_loop String.length]. rewrite (a2b_not_pad _ _ Hv), Hv.
    destruct q as [|[|[|[|q]]]]; try lia.
    + specialize (IH Hs 1%nat v O out).
      replace (0 + S (String.length s))%nat with (1 + String.length s)%nat by lia.
      apply IH. lia.
    + match goal with |- context [a2b_base64_loop s 2 ?l' 0 ?o'] =>
        specialize (IH Hs 2%nat l' O o') end.
      replace (1 + S (String.length s))%nat with (2 + String.length s)%nat by lia.
      apply IH. lia.
    + match goal with |- context [a2b_base64_loop s 3 ?l' 0 ?o'] =>
        specialize (IH Hs 3%nat l' O o') end.
      replace (2 + S (String.length s))%nat with (3 + String.length s)%nat by lia.
      apply IH. lia.
    + match goal with |- context [a2b_base64_loop s 0 ?l' 0 ?o'] =>
        specialize (IH Hs 0%nat l' O o') end.
      replace ((3 + S (String.length s)) mod 4)%nat
        with ((0 + String.length s) mod 4)%nat.
      * apply IH. lia.
      * replace (3 + S (String.length s))%nat
          with (String.length s + 1 * 4)%nat by lia.
        now rewrite Nat.Div0.mod_add.
Qed.

(** Data characters that leave a group unfinished are rejected with 400. *)
Lemma upload_unfinished_group s w :
  string_forallb is_b64_alphabet s = true ->
  (String.length s mod 4 <> 0)%nat ->
  exists detail,
    serve (upload_temp_image s) w
    = (HttpError 400 ("Failed to upload image: " +:+ detail), w).
Proof.
  intros Hs Hlen.
  assert (Hraise : exists e, image_bytes_of s = Raise e).
  { unfold image_bytes_of, base64_data_of.
    destruct (String.prefix "data:" s) eqn:Hp.
    - apply prefix_data_inv in Hp as [s' ->]. discriminate Hs.
    - unfold b64decode, a2b_base64. rewrite (is_b64_alphabet_ascii _ Hs).
      pose proof (a2b_base64_loop_unpadded s Hs 0%nat 0 0%nat [] ltac:(lia)) as H.
      destruct (a2b_base64_loop s 0 0 0 []) as [bs|e]; [|now exists e].
      now destruct Hlen. }
  destruct Hraise as [e He]. exists (exn_str e).
  pose proof (upload_temp_image_runs s w) as Hrun.
  rewrite He in Hrun. unfold serve. now rewrite Hrun.
Qed.

(** ** ISO-8601 rendering *)

Lemma digit_val_digit d : d < 10 -> digit_val (digit d) = Some d.
Proof.
  intros H.
  assert (Hall : forallb (fun d => match digit_val (digit d) with
                                   | Some v => v =? d | None => false end)
                   (below 10) = true) by (vm_compute; reflexivity).
  rewrite forallb_forall in Hall. specialize (Hall d (In_below 10 d H)).
  destruct (digit_val (digit d)) as [v|]; [|discriminate].
  apply N.eqb_eq in Hall. now subst.
Qed.

Lemma read_digits_zpad k n acc rest :
  read_digits k acc (zpad k n +:+ rest)
  = Some (acc * 10 ^ N.of_nat k + n mod 10 ^ N.of_nat k, rest).
Proof.
  revert acc. induction k as [|k IH]; intros acc.
  - cbn [zpad read_digits]. rewrite append_nil.
    change (10 ^ N.of_nat 0) with 1. rewrite N.mod_1_r. do 2 f_equal. lia.
  - cbn [zpad]. rewrite append_String. cbn [read_digits].
    rewrite digit_val_digit by (apply N.mod_lt; lia).
    rewrite IH. do 2 f_equal.
    rewrite Nat2N.inj_succ, N.pow_succ_r'.
    rewrite (N.mul_comm 10 (10 ^ N.of_nat k)).
    rewrite (N.Div0.mod_mul_r n (10 ^ N.of_nat k) 10). lia.
Qed.

Lemma read_digits_field k n rest :
  n < 10 ^ N.of_nat k -> read_digits k 0 (zpad k n +:+ rest) = Some (n, rest).
Proof.
  intros H. rewrite read_digits_zpad, N.mod_small by exact H. reflexivity.
Qed.

Lemma expect_sep c rest : expect c (String c "" +:+ rest) = Some rest.
Proof. rewrite append_String, append_nil. cbn. now rewrite Ascii.eqb_refl. Qed.

Lemma days_in_month_le y m : days_in_month y m <= 31.
Proof.
  unfold days_in_month.
  repeat match goal with |- context [if ?b then _ else _] => destruct b end; lia.
Qed.

Lemma valid_datetime_ranges d :
  valid_datetime d = true ->
  year d < 10 ^ N.of_nat 4 /\ month d < 10 ^ N.of_nat 2 /\ day d < 10 ^ N.of_nat 2
  /\ hour d < 10 ^ N.of_nat 2 /\ minute d < 10 ^ N.of_nat 2
  /\ second d < 10 ^ N.of_nat 2 /\ microsecond d < 10 ^ N.of_nat 6.
Proof.
  unfold valid_datetime. intros H.
  repeat match type of H with
  | (_ && _) = true => let H' := fresh "Hr" in apply andb_prop in H as [H H']
  end.
  repeat match goal with
  | H : (_ <=? _) = true |- _ => apply N.leb_le in H
  | H : (_ <? _) = true |- _ => apply N.ltb_lt in H
  end.
  pose proof (days_in_month_le (year d) (month d)).
  change (10 ^ N.of_nat 4) with 10000. change (10 ^ N.of_nat 2) with 100.
  change (10 ^ N.of_nat 6) with 1000000.
  repeat split; lia.
Qed.

Lemma append_empty_r s : s +:+ "" = s.
Proof.
  induction s as [|c s IH]; [reflexivity|]. rewrite append_String. now rewrite IH.
Qed.

Lemma read_fraction_rendered us :
  us < 10 ^ N.of_nat 6 ->
  read_fraction (if us =? 0 then "" else "." +:+ zpad 6 us) = Some us.
Proof.
  intros H. destruct (N.eqb_spec us 0) as [->|Hne]; [reflexivity|].
  rewrite append_String, append_nil. cbn [read_fraction].
  rewrite Ascii.eqb_refl, <- (append_empty_r (zpad 6 us)).
  now rewrite (read_digits_field 6 us "" H).
Qed.

(** [isoformat] of a valid datetime reads back as that datetime. *)
Lemma parse_iso8601_isoformat d :
  valid_datetime d = true -> parse_iso8601 (isoformat d) = Some d.
Proof.
  intros Hvalid.
  destruct (valid_datetime_ranges d Hvalid) as (Hy & Hmo & Hd & Hh & Hmi & Hs & Hus).
  unfold parse_iso8601, isoformat.
  rewrite (read_digits_field 4 _ _ Hy), expect_sep.
  rewrite (read_digits_field 2 _ _ Hmo), expect_sep.
  rewrite (read_digits_field 2 _ _ Hd), expect_sep.
  rewrite (read_digits_field 2 _ _ Hh), expect_sep.
  rewrite (read_digits_field 2 _ _ Hmi), expect_sep.
  rewrite (read_digits_field 2 _ _ Hs).
  rewrite (read_fraction_rendered _ Hus).
  now destruct d.
Qed.

(** The timestamps that [serialize_doc] puts in a document are valid
    ISO-8601 strings that determine the datetimes they render: two valid
    datetimes with one rendering are equal. *)
Theorem serialize_doc_timestamps_iso8601 (d : Doc) :
  valid_datetime (created_at d) = true ->
  valid_datetime (updated_at d) = true ->
  exists s,
    serialize_doc (Some d) = Some s
    /\ is_iso8601 (s_created_at s) = true
    /\ is_iso8601 (s_updated_at s) = true
    /\ parse_iso8601 (s_created_at s) = Some (created_at d)
    /\ parse_iso8601 (s_updated_at s) = Some (updated_at d)
    /\ (s_created_at s = s_updated_at s <-> created_at d = updated_at d).
Proof.
  intros Hc Hu. exists (serialize d). cbn [serialize_doc serialize s_created_at s_updated_at].
  unfold is_iso8601.
  rewrite (parse_iso8601_isoformat _ Hc), (parse_iso8601_isoformat _ Hu).
  repeat split; auto.
  - intros Heq.
    pose proof (parse_iso8601_isoformat _ Hc) as H1.
    rewrite Heq, (parse_iso8601_isoformat _ Hu) in H1. congruence.
  - now intros ->.
Qed.

Lemma serialize_doc_timestamps_iso8601_witness :
  exists s,
    serialize_doc (Some mona_lisa) = Some s
    /\ is_iso8601 (s_created_at s) = true
    /\ s_created_at s = "2024-01-01T12:00:00.030000".
Proof.
  destruct (serialize_doc_timestamps_iso8601 mona_lisa eq_refl eq_refl)
    as (s & Hs & Hiso & _).
  exists s. split; [exact Hs |]. split; [exact Hiso |].
  injection Hs as <-. reflexivity.
Defined.

(** ** The body of Create past line 151

    What the statements of [create_image_analysis] compute in a frame whose
    [datetime] is already bound, which is not the frame Python gives the
    handler (see [create_image_analysis_fails]): with the store down, the
    payload comes back under a mock identifier, nothing is stored, and the
    two timestamps are the renderings of two successive readings of the
    clock. *)
Lemma create_body_with_store_down (timestamp_repr : datetime -> string)
    (analysis : ImageAnalysisRequest) (w : World) :
  reachable w = false ->
  exists w',
    create_image_analysis_in timestamp_repr Bound analysis w
    = (Ok {| r_id := "mock_" +:+ timestamp_repr (clock w (S (S (ticks w))));
             r_image_name := rq_image_name analysis;
             r_analysis_type := rq_analysis_type analysis;
             r_descriptions := or_empty (rq_descriptions analysis);
             r_metadata := or_empty (rq_metadata analysis);
             r_created_at := isoformat (clock w (ticks w));
             r_updated_at := isoformat (clock w (S (ticks w))) |}, w')
    /\ docs w' = docs w.
Proof.
  intros Hdown. eexists. split.
  - unfold create_image_analysis_in, load_fast, get_collection, insert_one,
      select_server, try_except, now, utcnow.
    unfold bind, ret, raise. cbv beta.
    change (reachable (with_ticks (S (ticks (with_ticks (S (ticks w)) w)))
                         (with_ticks (S (ticks w)) w)))
      with (reachable w).
    rewrite Hdown. reflexivity.
  - reflexivity.
Qed.

Example create_body_two_readings :
  fst (create_image_analysis_in (fun _ => "1704110400.000002") Bound
         (sample_request ["a"]) (sample_world false [] 0))
  = Ok {| r_id := "mock_1704110400.000002";
          r_image_name := "starry_night.jpg";
          r_analysis_type := "museum";
          r_descriptions := ["a"];
          r_metadata := [];
          r_created_at := "2024-01-01T12:00:00";
          r_updated_at := "2024-01-01T12:00:00.000001" |}.
Proof. vm_compute. reflexivity. Qed.

(** The message names the count of data characters that the decoder works
    out from the bytes written. *)
Example b64decode_dangling_character :
  b64decode "abcde"
  = Raise (BinasciiError
             "Invalid base64-encoded string: number of data characters (5) cannot be 1 more than a multiple of 4")
  /\ b64decode "ab=cdefghi"
     = Raise (BinasciiError
                "Invalid base64-encoded string: number of data characters (9) cannot be 1 more than a multiple of 4")
  /\ fst (serve (upload_temp_image "a") (sample_world true [] 0))
     = HttpError 400
         "Failed to upload image: Invalid base64-encoded string: number of data characters (1) cannot be 1 more than a multiple of 4".
Proof. vm_compute. repeat split. Qed.

Lemma upload_unfinished_group_witness :
  exists detail,
    serve (upload_temp_image "abcde") (sample_world true [] 0)
    = (HttpError 400 ("Failed to upload image: " +:+ detail), sample_world true [] 0).
Proof.
  apply (upload_unfinished_group "abcde" (sample_world true [] 0)).
  - reflexivity.
  - discriminate.
Defined.

(** * Further properties of the handlers *)

(** ** Search *)


(** Three records, of which the pattern names one. *)
Example search_by_literal_name :
  fst (search_analyses_by_name literal_regex "sign.jpg"
         (sample_world true [starry_night; street_sign; mona_lisa] 0))
  = Ok [serialize street_sign]
  /\ fst (serve_model validate_list (search_analyses_by_name literal_regex "sign.jpg")
            (sample_world true [starry_night; street_sign; mona_lisa] 0))
     = Http200 [ {| m_id := "65a1b2c3d4e5f60718293a4d";
                    m_image_name := "sign.jpg";
                    m_analysis_type := "text";
                    m_descriptions := ["EXIT"];
                    m_metadata := [];
                    m_created_at := "2024-01-01T12:00:00.020000";
                    m_updated_at := "2024-01-01T12:00:00.020000" |} ].
Proof. vm_compute. split; reflexivity. Qed.

Example search_with_store_down :
  fst (serve_model validate_list (search_analyses_by_name literal_regex "sign.jpg")
         (sample_world false [starry_night; street_sign; mona_lisa] 0))
  = Http200 [].
Proof. vm_compute. reflexivity. Qed.

(** ** Get by id, found *)

Lemma lower_hex_facts c :
  lower_hex (lower_hex c) = lower_hex c
  /\ is_hex (lower_hex c) = is_hex c.
Proof.
  destruct c as [[] [] [] [] [] [] [] []]; vm_compute; split; reflexivity.
Qed.

Lemma string_map_lower_hex_idem s :
  string_map lower_hex (string_map lower_hex s) = string_map lower_hex s.
Proof.
  induction s as [|c s IH]; cbn; [reflexivity|].
  now rewrite IH, (proj1 (lower_hex_facts c)).
Qed.

Lemma is_valid_oid_lower s :
  is_valid_oid (string_map lower_hex s) = is_valid_oid s.
Proof.
  unfold is_valid_oid. f_equal.
  - f_equal. induction s as [|c s IH]; cbn; [reflexivity|]. now rewrite IH.
  - induction s as [|c s IH]; cbn; [reflexivity|].
    now rewrite IH, (proj2 (lower_hex_facts c)).
Qed.

Lemma get_analysis_by_id_runs analysis_id w d :
  is_valid_oid analysis_id = true ->
  reachable w = true ->
  List.find (by_id (string_map lower_hex analysis_id)) (docs w) = Some d ->
  get_analysis_by_id analysis_id w = (Ok (serialize d), w).
Proof.
  intros Hv Hup Hfind.
  unfold get_analysis_by_id, get_collection.
  erewrite try_except_ok; [reflexivity|].
  step (eq_refl : ret tt w = (Ok tt, w)).
  step (ObjectId_valid _ w Hv).
  step (find_one_up (by_id (string_map lower_hex analysis_id)) w Hup).
  now rewrite Hfind.
Qed.

(** A GET with a well-formed identifier that matches a record of a
    reachable store: the handler returns that record, serialized under its
    lower-case identifier, and leaves the world as it was; the hex digits
    of the request may be in either case.  What is sent goes through the
    route's response model: when the record has descriptions the answer is
    200 with the seven fields of the model ([image_url] and [image_base64]
    are not among them), and when it has none the record fails the model
    and the answer is a bare 500. *)
Theorem get_analysis_by_id_found (analysis_id : string) (w : World) (d : Doc) :
  is_valid_oid analysis_id = true ->
  reachable w = true ->
  List.find (by_id (string_map lower_hex analysis_id)) (docs w) = Some d ->
  get_analysis_by_id analysis_id w = (Ok (serialize d), w)
  /\ serve_model validate_record (get_analysis_by_id analysis_id) w
     = (match descriptions d with
        | Some ds =>
            Http200 {| m_id := string_map lower_hex analysis_id;
                       m_image_name := image_name d;
                       m_analysis_type := analysis_type d;
                       m_descriptions := ds;
                       m_metadata := metadata d;
                       m_created_at := isoformat (created_at d);
                       m_updated_at := isoformat (updated_at d) |}
        | None => HttpError 500 "Internal Server Error"
        end, w)
  /\ get_analysis_by_id (string_map lower_hex analysis_id) w
     = get_analysis_by_id analysis_id w.
Proof.
  intros Hv Hup Hfind.
  pose proof (get_analysis_by_id_runs _ _ _ Hv Hup Hfind) as Hrun.
  split; [exact Hrun|]. split.
  - unfold serve_model. rewrite Hrun. cbn [respond_model].
    unfold validate_record. cbn [s_descriptions serialize].
    apply find_some in Hfind as [_ Hid]. unfold by_id in Hid.
    apply String.eqb_eq in Hid.
    destruct (descriptions d); [|reflexivity]. cbn. now rewrite Hid.
  - rewrite Hrun.
    apply get_analysis_by_id_runs; [| exact Hup |].
    + now rewrite is_valid_oid_lower.
    + now rewrite string_map_lower_hex_idem.
Qed.

Lemma get_analysis_by_id_found_witness :
  serve_model validate_record (get_analysis_by_id "65A1B2C3D4E5F60718293A4B")
    (sample_world true [mona_lisa; starry_night] 0)
  = (Http200 {| m_id := "65a1b2c3d4e5f60718293a4b";
                m_image_name := "starry_night.jpg";
                m_analysis_type := "museum";
                m_descriptions := ["A swirling night sky over a village"];
                m_metadata := [("artist", JStr "Vincent van Gogh")];
                m_created_at := "2024-01-01T12:00:00";
                m_updated_at := "2024-01-01T12:00:00" |},
     sample_world true [mona_lisa; starry_night] 0).
Proof.
  exact (proj1 (proj2 (get_analysis_by_id_found "65A1B2C3D4E5F60718293A4B"
                         (sample_world true [mona_lisa; starry_night] 0) starry_night
                         eq_refl eq_refl eq_refl))).
Defined.

(** A record stored without descriptions cannot be read back. *)
Example get_record_without_descriptions :
  serve_model validate_record (get_analysis_by_id "65a1b2c3d4e5f60718293a4e")
    (sample_world true [untitled_sketch] 0)
  = (HttpError 500 "Internal Server Error", sample_world true [untitled_sketch] 0).
Proof. vm_compute. reflexivity. Qed.

(** ** Update: frame, failures, composition *)

Lemma update_first_split query set ds d :
  List.find query ds = Some d ->
  exists pre post,
    ds = (pre ++ d :: post)%list
    /\ Forall (fun x => query x = false) pre
    /\ update_first query set ds = ((pre ++ set d :: post)%list, 1%nat).
Proof.
  induction ds as [|x rest IH]; cbn; [discriminate|].
  destruct (query x) eqn:Hq.
  - intros [= ->]. exists [], rest. repeat split. constructor.
  - intros Hfind. destruct (IH Hfind) as (pre & post & -> & Hpre & ->).
    exists (x :: pre), post. repeat split. now constructor.
Qed.

Lemma update_analysis_run analysis_id update_data w d :
  is_valid_oid analysis_id = true ->
  reachable w = true ->
  List.find (by_id (string_map lower_hex analysis_id)) (docs w) = Some d ->
  update_analysis analysis_id update_data w
  = (Ok (Some (serialize (apply_update (clock w (ticks w)) update_data d))),
     with_docs
       (fst (update_first (by_id (string_map lower_hex analysis_id))
               (apply_update (clock w (ticks w)) update_data) (docs w)))
       (with_ticks (S (ticks w)) w)).
Proof.
  intros Hv Hup Hfind.
  set (oid := string_map lower_hex analysis_id) in *.
  set (t := clock w (ticks w)).
  assert (Hq : by_id oid (apply_update t update_data d) = true).
  { rewrite by_id_apply_update. now apply find_some in Hfind. }
  destruct (update_first_found _ (apply_update t update_data) _ _ Hfind Hq)
    as (ds' & Hupd & Hfind' & Hlen).
  rewrite Hupd. cbn [fst].
  set (w1 := with_ticks (S (ticks w)) w).
  unfold update_analysis, get_collection.
  erewrite try_except_ok; [reflexivity |].
  step (eq_refl : ret tt w = (Ok tt, w)).
  step (utcnow_reads w). fold t w1.
  step (ObjectId_valid _ w1 Hv). fold oid.
  step (update_one_up (by_id oid) (apply_update t update_data) w1 ds' 1 Hup Hupd).
  cbn [Nat.eqb].
  step (ObjectId_valid _ (with_docs ds' w1) Hv). fold oid.
  step (find_one_up (by_id oid) (with_docs ds' w1) Hup).
  cbn [docs with_docs]. rewrite Hfind'. reflexivity.
Qed.

(** A successful PUT rewrites exactly one record, the first with the
    identifier, where it stands: the records before and after it, the temp
    files and the record's own identity fields are left as they were. *)
Theorem update_analysis_changes_one_record (analysis_id : string)
    (update_data : ImageAnalysisUpdate) (w : World) (d : Doc) :
  is_valid_oid analysis_id = true ->
  reachable w = true ->
  List.find (by_id (string_map lower_hex analysis_id)) (docs w) = Some d ->
  exists pre post d',
    docs w = (pre ++ d :: post)%list
    /\ docs (snd (update_analysis analysis_id update_data w)) = (pre ++ d' :: post)%list
    /\ Forall (fun x => by_id (string_map lower_hex analysis_id) x = false) pre
    /\ identity_of d' = identity_of d
    /\ files (snd (update_analysis analysis_id update_data w)) = files w.
Proof.
  intros Hv Hup Hfind.
  rewrite (update_analysis_run _ update_data _ _ Hv Hup Hfind).
  destruct (update_first_split _
              (apply_update (clock w (ticks w)) update_data) _ _ Hfind)
    as (pre & post & Hds & Hpre & Hupd).
  exists pre, post, (apply_update (clock w (ticks w)) update_data d).
  rewrite Hupd. cbn. auto.
Qed.

Lemma update_analysis_changes_one_record_witness :
  exists d',
    docs (snd (update_analysis "65a1b2c3d4e5f60718293a4d"
                 {| up_descriptions := Some ["WAY OUT"]; up_metadata := None |}
                 (sample_world true [starry_night; street_sign; mona_lisa] 9)))
    = [starry_night; d'; mona_lisa]
    /\ identity_of d' = identity_of street_sign.
Proof.
  destruct (update_analysis_changes_one_record "65a1b2c3d4e5f60718293a4d"
              {| up_descriptions := Some ["WAY OUT"]; up_metadata := None |}
              (sample_world true [starry_night; street_sign; mona_lisa] 9)
              street_sign eq_refl eq_refl eq_refl)
    as (pre & post & d' & Hbefore & Hafter & Hpre & Hid & _).
  exists d'. split; [|exact Hid].
  assert (Hpp : pre = [starry_night] /\ post = [mona_lisa]).
  { cbn [docs sample_world] in Hbefore.
    destruct pre as [|x [|y pre]].
    - apply Forall_nil in Hpre. discriminate Hbefore.
    - injection Hbefore as Hx Hpost. subst. auto.
    - injection Hbefore as Hx Hy Hrest. subst.
      apply Forall_cons_1 in Hpre as [_ Hpre].
      apply Forall_cons_1 in Hpre as [Hy _]. discriminate Hy. }
  destruct Hpp as [-> ->]. exact Hafter.
Defined.

Lemma update_analysis_unmatched analysis_id update_data w :
  is_valid_oid analysis_id = true ->
  reachable w = true ->
  List.find (by_id (string_map lower_hex analysis_id)) (docs w) = None ->
  update_analysis analysis_id update_data w
  = (Raise (HTTPException 500 "Failed to update analysis: 404: Analysis not found"),
     with_docs (docs w) (with_ticks (S (ticks w)) w)).
Proof.
  intros Hv Hup Hnone.
  set (w1 := with_ticks (S (ticks w)) w).
  unfold update_analysis, get_collection.
  erewrite try_except_raise; cycle 1.
  { step (eq_refl : ret tt w = (Ok tt, w)).
    step (utcnow_reads w). fold w1.
    step (ObjectId_valid _ w1 Hv).
    step (update_one_up _ (apply_update (clock w (ticks w)) update_data) w1
            (docs w) 0 Hup (update_first_none _ _ _ Hnone)).
    reflexivity. }
  reflexivity.
Qed.

Lemma update_analysis_bad_id analysis_id update_data w :
  is_valid_oid analysis_id = false ->
  update_analysis analysis_id update_data w
  = (Raise (HTTPException 500
              ("Failed to update analysis: " +:+ exn_str (InvalidId analysis_id))),
     with_ticks (S (ticks w)) w).
Proof.
  intros Hv. unfold update_analysis, get_collection.
  erewrite try_except_raise; cycle 1.
  { step (eq_refl : ret tt w = (Ok tt, w)).
    step (utcnow_reads w).
    now rewrite (bind_raise _ _ _ _ _ (ObjectId_invalid _ _ Hv)). }
  reflexivity.
Qed.

Lemma update_one_down query set w :
  reachable w = false ->
  update_one query set w = (Raise ServerSelectionTimeoutError, w).
Proof.
  intros Hdown. unfold update_one.
  now rewrite (bind_raise _ _ _ _ _ (select_server_down w Hdown)).
Qed.

Lemma update_analysis_store_down analysis_id update_data w :
  is_valid_oid analysis_id = true ->
  reachable w = false ->
  update_analysis analysis_id update_data w
  = (Raise (HTTPException 500
              ("Failed to update analysis: " +:+ exn_str ServerSelectionTimeoutError)),
     with_ticks (S (ticks w)) w).
Proof.
  intros Hv Hdown. set (w1 := with_ticks (S (ticks w)) w).
  unfold update_analysis, get_collection.
  erewrite try_except_raise; cycle 1.
  { step (eq_refl : ret tt w = (Ok tt, w)).
    step (utcnow_reads w). fold w1.
    step (ObjectId_valid _ w1 Hv).
    now rewrite (bind_raise _ _ _ _ _ (update_one_down _ _ w1 Hdown)). }
  reflexivity.
Qed.

(** A PUT that cannot be carried out (a malformed identifier, an
    unreachable store, or a well-formed identifier that matches no record) is
    answered with 500, the last with the detail "404: Analysis not found"
    that the handler raised and caught itself; the records and the temp
    files are left as they were. *)
Theorem update_analysis_failure_is_500 (analysis_id : string)
    (update_data : ImageAnalysisUpdate) (w : World) :
  is_valid_oid analysis_id = false
  \/ reachable w = false
  \/ List.find (by_id (string_map lower_hex analysis_id)) (docs w) = None ->
  status_of (fst (serve (update_analysis analysis_id update_data) w)) = 500%Z
  /\ docs (snd (update_analysis analysis_id update_data w)) = docs w
  /\ files (snd (update_analysis analysis_id update_data w)) = files w
  /\ (is_valid_oid analysis_id = true -> reachable w = true ->
      fst (serve (update_analysis analysis_id update_data) w)
      = HttpError 500 "Failed to update analysis: 404: Analysis not found").
Proof.
  intros Hcase. unfold serve.
  destruct (is_valid_oid analysis_id) eqn:Hv.
  - destruct (reachable w) eqn:Hup.
    + destruct Hcase as [H|[H|Hnone]]; try discriminate.
      rewrite (update_analysis_unmatched _ update_data _ Hv Hup Hnone).
      cbn. auto.
    + rewrite (update_analysis_store_down _ update_data _ Hv Hup).
      cbn. repeat split; auto. discriminate.
  - rewrite (update_analysis_bad_id _ update_data _ Hv).
    cbn. repeat split; auto. discriminate.
Qed.

Lemma update_analysis_failure_is_500_witness :
  fst (serve (update_analysis "000000000000000000000000"
                {| up_descriptions := Some ["x"]; up_metadata := None |})
         (sample_world true [starry_night] 0))
  = HttpError 500 "Failed to update analysis: 404: Analysis not found".
Proof.
  apply (update_analysis_failure_is_500 "000000000000000000000000"
           {| up_descriptions := Some ["x"]; up_metadata := None |}
           (sample_world true [starry_night] 0)
           (or_intror (or_intror eq_refl))); reflexivity.
Defined.



(** A PUT of metadata on a record without descriptions is carried out and
    answered with 500, and so is the GET after it. *)
Example update_record_without_descriptions :
  let w := sample_world true [untitled_sketch] 12000 in
  let '(r, w') :=
    serve_model validate_optional
      (update_analysis "65a1b2c3d4e5f60718293a4e"
         {| up_descriptions := None; up_metadata := Some [("room", JStr "12")] |}) w in
  r = HttpError 500 "Internal Server Error"
  /\ docs w' <> docs w
  /\ fst (serve_model validate_record
            (get_analysis_by_id "65a1b2c3d4e5f60718293a4e") w')
     = HttpError 500 "Internal Server Error".
Proof. vm_compute. repeat split. discriminate. Qed.



(** ** The store unreachable *)

Lemma find_sort_limit_down query limit w :
  reachable w = false ->
  find_sort_limit query limit w = (Raise ServerSelectionTimeoutError, w).
Proof.
  intros Hdown. unfold find_sort_limit.
  now rewrite (bind_raise _ _ _ _ _ (select_server_down w Hdown)).
Qed.

(** With the store unreachable each endpoint keeps to its own policy: List,
    Get by id, Update and the upsert answer 500, while Search answers 200
    with an empty list. *)
Theorem store_down_policies (regex_i : string -> result (string -> bool))
    (ty : option string) (limit : option Z) (analysis_id image_name_param : string)
    (update_data : ImageAnalysisUpdate) (analysis : ImageAnalysisRequest)
    (w : World) :
  reachable w = false ->
  status_of (fst (serve (get_all_analyses_request ty limit) w)) = 500%Z
  /\ status_of (fst (serve (get_analysis_by_id analysis_id) w)) = 500%Z
  /\ status_of (fst (serve (update_analysis analysis_id update_data) w)) = 500%Z
  /\ status_of (fst (serve (create_or_update_image_analysis analysis) w)) = 500%Z
  /\ fst (serve (search_analyses_by_name regex_i image_name_param) w) = Http200 [].
Proof.
  intros Hdown. unfold serve. repeat split.
  - unfold get_all_analyses_request, get_all_analyses, get_collection.
    erewrite try_except_raise; cycle 1.
    { step (eq_refl : ret tt w = (Ok tt, w)).
      now rewrite (bind_raise _ _ _ _ _ (find_sort_limit_down _ _ w Hdown)). }
    reflexivity.
  - unfold get_analysis_by_id, get_collection.
    destruct (is_valid_oid analysis_id) eqn:Hv.
    + erewrite try_except_raise; cycle 1.
      { step (eq_refl : ret tt w = (Ok tt, w)).
        step (ObjectId_valid _ w Hv).
        now rewrite (bind_raise _ _ _ _ _ (find_one_down _ w Hdown)). }
      reflexivity.
    + erewrite try_except_raise; cycle 1.
      { step (eq_refl : ret tt w = (Ok tt, w)).
        now rewrite (bind_raise _ _ _ _ _ (ObjectId_invalid _ w Hv)). }
      reflexivity.
  - destruct (is_valid_oid analysis_id) eqn:Hv.
    + now rewrite (update_analysis_store_down _ update_data _ Hv Hdown).
    + now rewrite (update_analysis_bad_id _ update_data _ Hv).
  - destruct (create_or_update_always_500 analysis w) as [detail ->]. reflexivity.
  - unfold search_analyses_by_name, find_regex_sorted, get_collection.
    erewrite try_except_raise; cycle 1.
    { step (eq_refl : ret tt w = (Ok tt, w)).
      rewrite (bind_raise _ _ w ServerSelectionTimeoutError w); [reflexivity|].
      now rewrite (bind_raise _ _ _ _ _ (select_server_down w Hdown)). }
    reflexivity.
Qed.

Lemma store_down_policies_witness :
  status_of (fst (serve (get_all_analyses_request None None)
                    (sample_world false [starry_night] 0))) = 500%Z
  /\ fst (serve (search_analyses_by_name literal_regex "starry_night.jpg")
            (sample_world false [starry_night] 0)) = Http200 [].
Proof.
  destruct (store_down_policies literal_regex None None
              "65a1b2c3d4e5f60718293a4b" "starry_night.jpg"
              {| up_descriptions := None; up_metadata := None |}
              (sample_request []) (sample_world false [starry_night] 0) eq_refl)
    as (Hlist & _ & _ & _ & Hsearch).
  split; [exact Hlist | exact Hsearch].
Defined.

(** ** Uploads, one after the other *)

Lemma length_append_str s t :
  String.length (s +:+ t) = (String.length s + String.length t)%nat.
Proof.
  induction s as [|c s IH]; [reflexivity|].
  rewrite append_String. cbn. now rewrite IH.
Qed.

Lemma append_suffix_inj s1 s2 t : s1 +:+ t = s2 +:+ t -> s1 = s2.
Proof.
  revert s2. induction s1 as [|c s1 IH]; intros [|c' s2] H.
  - reflexivity.
  - apply (f_equal String.length) in H.
    rewrite append_nil, length_append_str in H. cbn in H. lia.
  - apply (f_equal String.length) in H.
    rewrite append_nil, length_append_str in H. cbn in H. lia.
  - rewrite !append_String in H. injection H as -> H. f_equal. now apply IH.
Qed.

(** Uploads accumulate: after two successful uploads whose generated
    identifiers differ, each URL still serves the bytes of its own upload;
    the records are not touched. *)
Theorem uploads_accumulate (first second : string) (bytes1 bytes2 : list N)
    (w : World) :
  image_bytes_of first = Ok bytes1 ->
  image_bytes_of second = Ok bytes2 ->
  uuid_gen w (uuid_next w) <> uuid_gen w (S (uuid_next w)) ->
  exists r1 w1 r2 w2,
    upload_temp_image first w = (Ok r1, w1)
    /\ upload_temp_image second w1 = (Ok r2, w2)
    /\ fetch (u_image_url r1) w2 = Some bytes1
    /\ fetch (u_image_url r2) w2 = Some bytes2
    /\ docs w2 = docs w.
Proof.
  intros H1 H2 Hfresh.
  pose proof (upload_temp_image_runs first w) as Hrun1.
  rewrite H1 in Hrun1. cbv zeta in Hrun1.
  set (id1 := uuid_gen w (uuid_next w)) in *.
  set (w1 := with_files (<[id1 +:+ ".jpg" := bytes1]> (files w))
               (with_uuid_next (S (uuid_next w)) w)) in *.
  pose proof (upload_temp_image_runs second w1) as Hrun2.
  rewrite H2 in Hrun2. cbv zeta in Hrun2.
  change (uuid_gen w1 (uuid_next w1)) with (uuid_gen w (S (uuid_next w))) in Hrun2.
  set (id2 := uuid_gen w (S (uuid_next w))) in *.
  do 4 eexists. split; [exact Hrun1 |]. split; [exact Hrun2 |].
  split; [| split; [apply fetch_uploaded | reflexivity]].
  unfold fetch. cbn [u_image_url]. rewrite strip_prefix_append.
  cbn [files with_files w1].
  rewrite lookup_insert_ne.
  - apply lookup_insert_eq.
  - intros Heq. apply Hfresh. now apply append_suffix_inj in Heq.
Qed.

Lemma uploads_accumulate_witness :
  exists r1 w1 r2 w2,
    upload_temp_image "YQ==" (sample_world true [] 0) = (Ok r1, w1)
    /\ upload_temp_image "data:image/png;base64,Yg==" w1 = (Ok r2, w2)
    /\ fetch (u_image_url r1) w2 = Some [97]
    /\ fetch (u_image_url r2) w2 = Some [98].
Proof.
  destruct (uploads_accumulate "YQ==" "data:image/png;base64,Yg==" [97] [98]
              (sample_world true [] 0) eq_refl eq_refl)
    as (r1 & w1 & r2 & w2 & Hu1 & Hu2 & Hf1 & Hf2 & _).
  - discriminate.
  - exists r1, w1, r2, w2. auto.
Defined.

(** ** Lenient decoding *)

Lemma a2b_base64_loop_strip_junk s :
  forall quad_pos leftchar pads out,
    a2b_base64_loop s quad_pos leftchar pads out
    = a2b_base64_loop (strip_junk s) quad_pos leftchar pads out.
Proof.
  induction s as [|c s IH]; intros q l p out; [reflexivity|].
  cbn [strip_junk]. unfold is_significant, is_b64_alphabet.
  destruct (Ascii.eqb c BASE64_PAD) eqn:Hpad.
  - cbn [orb a2b_base64_loop]. rewrite Hpad.
    destruct (2 <=? q)%nat; [destruct (4 <=? q + S p)%nat|]; auto.
  - cbn [orb]. destruct (a2b c) as [v|] eqn:Hv.
    + cbn [a2b_base64_loop]. rewrite Hpad, Hv.
      destruct q as [|[|[|q]]]; auto.
    + cbn [a2b_base64_loop]. rewrite Hpad, Hv. auto.
Qed.

Lemma upload_stores image_base64 image_bytes w :
  image_bytes_of image_base64 = Ok image_bytes ->
  exists response w',
    upload_temp_image image_base64 w = (Ok response, w')
    /\ fetch (u_image_url response) w' = Some image_bytes.
Proof.
  intros H. pose proof (upload_temp_image_runs image_base64 w) as Hrun.
  rewrite H in Hrun. cbv zeta in Hrun.
  do 2 eexists. split; [exact Hrun | apply fetch_uploaded].
Qed.

(** ASCII characters outside the base64 alphabet (line breaks, blanks,
    punctuation) anywhere in the payload are skipped: when what is left is
    well-formed base64, the upload succeeds and the URL serves its bytes. *)
Theorem upload_skips_other_characters (image_base64 base64_data : string)
    (image_bytes : list N) (w : World) :
  base64_data_of image_base64 = Ok base64_data ->
  is_ascii_str base64_data = true ->
  rfc4648_decode (strip_junk base64_data) = Some image_bytes ->
  exists response w',
    upload_temp_image image_base64 w = (Ok response, w')
    /\ fetch (u_image_url response) w' = Some image_bytes.
Proof.
  intros Hdata Hascii Hvalid. apply upload_stores.
  unfold image_bytes_of. rewrite Hdata.
  unfold b64decode, a2b_base64. rewrite Hascii, a2b_base64_loop_strip_junk.
  apply rfc4648_decode_sound in Hvalid.
  exact (a2b_base64_loop_rfc4648 _ _ Hvalid []).
Qed.

Lemma upload_skips_other_characters_witness :
  exists response w',
    upload_temp_image "data:image/jpeg;base64,/9j/ 4A= =" (sample_world true [] 0)
    = (Ok response, w')
    /\ fetch (u_image_url response) w' = Some [255; 216; 255; 224].
Proof.
  exact (upload_skips_other_characters "data:image/jpeg;base64,/9j/ 4A= ="
           "/9j/ 4A= =" [255; 216; 255; 224] (sample_world true [] 0)
           eq_refl eq_refl eq_refl).
Defined.

Lemma is_ascii_str_append s t :
  is_ascii_str (s +:+ t) = is_ascii_str s && is_ascii_str t.
Proof.
  induction s as [|c s IH]; [reflexivity|].
  rewrite append_String. cbn. now rewrite IH, andb_assoc.
Qed.

Lemma a2b_base64_loop_after_padding s bs :
  rfc4648 s bs -> ends_with_pad s = true ->
  forall t out, a2b_base64_loop (s +:+ t) 0 0 0 out = Ok (out ++ bs)%list.
Proof.
  induction 1 as [|c0 c1 v0 v1 H0 H1|c0 c1 c2 v0 v1 v2 H0 H1 H2
                  |c0 c1 c2 c3 v0 v1 v2 v3 rest bs H0 H1 H2 H3 Hrest IH];
    intros Hend t out.
  - discriminate Hend.
  - pose proof (sextets_agree_all v0 v1 (a2b_lt _ _ H0) (a2b_lt _ _ H1)) as Hs.
    unfold sextets_agree in Hs. apply andb_prop in Hs as [Hs _].
    apply andb_prop in Hs as [Hs _]. apply N.eqb_eq in Hs.
    rewrite !append_String. cbn [a2b_base64_loop].
    rewrite (a2b_not_pad _ _ H0), H0, (a2b_not_pad _ _ H1), H1.
    cbn. now rewrite Hs.
  - pose proof (sextets_agree_all v0 v1 (a2b_lt _ _ H0) (a2b_lt _ _ H1)) as Hs.
    pose proof (sextets_agree_all v1 v2 (a2b_lt _ _ H1) (a2b_lt _ _ H2)) as Ht.
    unfold sextets_agree in Hs, Ht.
    apply andb_prop in Hs as [Hs _]. apply andb_prop in Hs as [Hs _].
    apply andb_prop in Ht as [Ht _]. apply andb_prop in Ht as [_ Ht].
    apply N.eqb_eq in Hs, Ht.
    rewrite !append_String. cbn [a2b_base64_loop].
    rewrite (a2b_not_pad _ _ H0), H0, (a2b_not_pad _ _ H1), H1,
      (a2b_not_pad _ _ H2), H2.
    cbn. rewrite Hs, Ht, <- app_assoc. reflexivity.
  - pose proof (sextets_agree_all v0 v1 (a2b_lt _ _ H0) (a2b_lt _ _ H1)) as Hs.
    pose proof (sextets_agree_all v1 v2 (a2b_lt _ _ H1) (a2b_lt _ _ H2)) as Ht.
    pose proof (sextets_agree_all v2 v3 (a2b_lt _ _ H2) (a2b_lt _ _ H3)) as Hu.
    unfold sextets_agree in Hs, Ht, Hu.
    apply andb_prop in Hs as [Hs _]. apply andb_prop in Hs as [Hs _].
    apply andb_prop in Ht as [Ht _]. apply andb_prop in Ht as [_ Ht].
    apply andb_prop in Hu as [_ Hu].
    apply N.eqb_eq in Hs, Ht, Hu.
    assert (Hrest_end : ends_with_pad rest = true).
    { cbn [ends_with_pad] in Hend. destruct rest; [|exact Hend].
      rewrite (a2b_not_pad _ _ H3) in Hend. discriminate. }
    rewrite !append_String. cbn [a2b_base64_loop].
    rewrite (a2b_not_pad _ _ H0), H0, (a2b_not_pad _ _ H1), H1,
      (a2b_not_pad _ _ H2), H2, (a2b_not_pad _ _ H3), H3.
    rewrite Hs, Ht, Hu, (IH Hrest_end), <- !app_assoc. reflexivity.
Qed.

Lemma padded_not_data_url s bs t :
  rfc4648 s bs -> ends_with_pad s = true -> String.prefix "data:" (s +:+ t) = false.
Proof.
  intros H Hend. destruct (String.prefix "data:" (s +:+ t)) eqn:Hp; [|reflexivity].
  apply prefix_data_inv in Hp as [s' Hs'].
  destruct H as [|c0 c1 v0 v1 H0 H1|c0 c1 c2 v0 v1 v2 H0 H1 H2
                 |c0 c1 c2 c3 v0 v1 v2 v3 rest bs H0 H1 H2 H3 Hrest].
  - discriminate Hend.
  - rewrite !append_String in Hs'. discriminate Hs'.
  - rewrite !append_String in Hs'. discriminate Hs'.
  - rewrite !append_String in Hs'.
    assert (Hrest_end : ends_with_pad rest = true).
    { cbn [ends_with_pad] in Hend. destruct rest; [|exact Hend].
      rewrite (a2b_not_pad _ _ H3) in Hend. discriminate. }
    destruct Hrest as [|d0 d1 w0 w1 G0 G1|d0 d1 d2 w0 w1 w2 G0 G1 G2
                       |d0 d1 d2 d3 w0 w1 w2 w3 rest' bs' G0 G1 G2 G3 Hrest'];
      [discriminate Hrest_end| | |];
      rewrite !append_String in Hs'; injection Hs' as _ _ _ _ -> _;
      discriminate G0.
Qed.

(** Whatever follows a complete padding is dropped without an error: a
    well-formed padded payload followed by any ASCII text is accepted, and
    the URL serves the bytes of the payload alone. *)
Theorem upload_drops_text_after_padding (payload trailing : string)
    (image_bytes : list N) (w : World) :
  rfc4648_decode payload = Some image_bytes ->
  ends_with_pad payload = true ->
  is_ascii_str trailing = true ->
  exists response w',
    upload_temp_image (payload +:+ trailing) w = (Ok response, w')
    /\ fetch (u_image_url response) w' = Some image_bytes.
Proof.
  intros Hvalid Hend Hascii. apply upload_stores.
  apply rfc4648_decode_sound in Hvalid.
  unfold image_bytes_of, base64_data_of.
  rewrite (padded_not_data_url _ _ trailing Hvalid Hend).
  unfold b64decode, a2b_base64.
  rewrite is_ascii_str_append, (rfc4648_is_ascii _ _ Hvalid), Hascii.
  exact (a2b_base64_loop_after_padding _ _ Hvalid Hend trailing []).
Qed.

Lemma upload_drops_text_after_padding_witness :
  exists response w',
    upload_temp_image ("YQ==" +:+ "YmM=") (sample_world true [] 0) = (Ok response, w')
    /\ fetch (u_image_url response) w' = Some [97].
Proof.
  exact (upload_drops_text_after_padding "YQ==" "YmM=" [97]
           (sample_world true [] 0) eq_refl eq_refl eq_refl).
Defined.

(** ** The brace-delimited part of a reply *)

Lemma until_close_some s body :
  until_close s = Some body ->
  no_close body = true /\ exists post, s = body +:+ String "}" post.
Proof.
  revert body. induction s as [|c s IH]; intros body; cbn; [discriminate|].
  destruct (Ascii.eqb_spec c "}") as [->|Hc].
  - intros [= <-]. split; [reflexivity|]. now exists s.
  - destruct (until_close s) as [b|]; [|discriminate].
    intros [= <-]. destruct (IH b eq_refl) as [Hb [post ->]].
    split.
    + unfold no_close in *. cbn. rewrite Hb.
      destruct (Ascii.eqb_spec c "}"); [contradiction|reflexivity].
    + exists post. now rewrite append_String.
Qed.

Lemma until_close_append body post :
  no_close body = true -> until_close (body +:+ String "}" post) = Some body.
Proof.
  induction body as [|c body IH]; intros Hb.
  - reflexivity.
  - unfold no_close in Hb. cbn in Hb. apply andb_prop in Hb as [Hc Hb].
    rewrite append_String. cbn [until_close].
    destruct (Ascii.eqb c "}"); [discriminate|]. now rewrite (IH Hb).
Qed.

(** [re_search_braces] is the search for the pattern: when it finds
    something, that is a match of the pattern in the text and no match starts
    further left; when it finds nothing, the text holds no match. *)
Theorem re_search_braces_leftmost_match (s : string) :
  match re_search_braces s with
  | Some matched =>
      exists pre body post,
        brace_match s pre body post
        /\ matched = String "{" (body +:+ "}")
        /\ (forall pre' body' post',
              brace_match s pre' body' post' ->
              (String.length pre <= String.length pre')%nat)
  | None => forall pre body post, ~ brace_match s pre body post
  end.
Proof.
  induction s as [|c s IH].
  - cbn. intros [|? ?] body post [H _]; discriminate H.
  - cbn [re_search_braces].
    assert (Hhere : forall body post,
              brace_match (String c s) "" body post ->
              c = "{"%char /\ until_close s = Some body /\ body <> "").
    { intros body post (Heq & Hne & Hnc). rewrite append_nil in Heq.
      injection Heq as -> ->. auto using until_close_append. }
    assert (Hlater : forall x pre body post,
              brace_match (String c s) (String x pre) body post ->
              brace_match s pre body post).
    { intros x pre body post (Heq & Hne & Hnc). rewrite append_String in Heq.
      injection Heq as _ ->. now repeat split. }
    assert (Hskip :
      (forall body post, ~ brace_match (String c s) "" body post) ->
      match re_search_braces s with
      | Some matched =>
          exists pre body post,
            brace_match (String c s) pre body post
            /\ matched = String "{" (body +:+ "}")
            /\ (forall pre' body' post',
                  brace_match (String c s) pre' body' post' ->
                  (String.length pre <= String.length pre')%nat)
      | None => forall pre body post, ~ brace_match (String c s) pre body post
      end).
    { intros Hnot. destruct (re_search_braces s) as [matched|].
      - destruct IH as (pre & body & post & (Heq & Hne & Hnc) & Hm & Hleft).
        exists (String c pre), body, post. split; [|split; [exact Hm|]].
        + repeat split; auto. rewrite append_String. now rewrite Heq.
        + intros [|x pre'] body' post' Hmatch.
          * now destruct (Hnot body' post').
          * cbn. apply Hlater in Hmatch. apply Hleft in Hmatch. lia.
      - intros [|x pre] body post Hmatch.
        + now destruct (Hnot body post).
        + apply Hlater in Hmatch. now destruct (IH pre body post). }
    destruct (Ascii.eqb_spec c "{") as [->|Hc].
    + destruct (until_close s) as [[|b body]|] eqn:Huntil.
      * apply Hskip. intros body post Hmatch.
        destruct (Hhere body post Hmatch) as (_ & Hu & Hne). congruence.
      * destruct (until_close_some _ _ Huntil) as [Hnc [post ->]].
        exists "", (String b body), post. split; [|split].
        -- unfold brace_match. split; [reflexivity | split; [discriminate | exact Hnc]].
        -- now rewrite append_String.
        -- intros. cbn. lia.
      * apply Hskip. intros body post Hmatch.
        destruct (Hhere body post Hmatch) as (_ & Hu & _). congruence.
    + apply Hskip. intros body post Hmatch.
      destruct (Hhere body post Hmatch) as (Hc' & _). contradiction.
Qed.

Example re_search_braces_in_prose :
  re_search_braces "Sure! {title: Mona Lisa} and {more}" = Some "{title: Mona Lisa}".
Proof. vm_compute. reflexivity. Qed.

(** ** Detect: what is read in a reply *)

Section DetectReplies.
Variable json_loads : string -> option json.
Variable validate_str : json -> option string.
Variable validate_float : json -> option Q.
Variable py_str : json -> string.

Lemma detect_artwork_on_reply image_url_param w status reply :
  truthy_str (environ w !! "NEXT_PUBLIC_OVERSHOOT_API_KEY") = true ->
  overshoot w = PostResponse true status (Some reply) ->
  detect_artwork json_loads validate_str validate_float py_str image_url_param w
  = (match fst (parse_detection json_loads validate_str validate_float reply w) with
     | Ok r => Ok r
     | Raise _ => Ok {| title := ""; description := py_str reply; confidence := Q0 |}
     end, w).
Proof.
  intros Hkey Hpost.
  unfold detect_artwork, try_except, bind, getenv, requests_post, response_json,
    ret, raise.
  rewrite Hkey, Hpost. rewrite parse_detection_world.
  now destruct (fst (parse_detection json_loads validate_str validate_float reply w)).
Qed.



(** A reply whose content is a text without a brace-delimited part is not
    an error: the text becomes the description, with an empty title and the
    default confidence 50; a reply object with neither "result" nor
    "content" is read as the text "{}". *)
Theorem detect_artwork_free_text (image_url_param : string) (w : World)
    (status : Z) (kv : list (string * json)) (text : string) :
  (forall s, validate_str (JStr s) = Some s) ->
  (forall q, validate_float (JNum q) = Some q) ->
  truthy_str (environ w !! "NEXT_PUBLIC_OVERSHOOT_API_KEY") = true ->
  overshoot w = PostResponse true status (Some (JDict kv)) ->
  reply_content kv = JStr text ->
  re_search_braces text = None ->
  fst (detect_artwork json_loads validate_str validate_float py_str image_url_param w)
  = Ok {| title := ""; description := text; confidence := Q50 |}
  /\ (assoc_get "result" kv = None -> assoc_get "content" kv = None -> text = "{}").
Proof.
  intros Hstr Hnum Hkey Hpost Hcontent Hnone. split.
  - rewrite (detect_artwork_on_reply _ _ _ _ Hkey Hpost).
    unfold parse_detection, dict_get, bind, ret. cbv beta.
    fold (reply_content kv). rewrite Hcontent, Hnone.
    cbn [assoc_get String.eqb Ascii.eqb Bool.eqb]. cbn.
    unfold make_response. rewrite !Hstr, Hnum. reflexivity.
  - intros Hr Hc. unfold reply_content in Hcontent. rewrite Hr, Hc in Hcontent.
    now injection Hcontent.
Qed.
End DetectReplies.


Lemma detect_artwork_free_text_witness :
  fst (detect_artwork loads_nothing only_str only_num repr_opaque "http://x/a.jpg"
         (with_overshoot (PostResponse true 200 (Some (JDict [("model", JStr "qwen")])))
            "key" (sample_world true [] 0)))
  = Ok {| title := ""; description := "{}"; confidence := Q50 |}.
Proof.
  apply (detect_artwork_free_text loads_nothing only_str only_num repr_opaque
           "http://x/a.jpg" _ 200 [("model", JStr "qwen")] "{}");
    reflexivity.
Defined.

(** A reply whose title is good but whose confidence is not a number loses
    the title too. *)
Example detect_one_bad_field :
  fst (detect_artwork loads_nothing only_str only_num repr_opaque "http://x/a.jpg"
         (with_overshoot
            (PostResponse true 200
               (Some (JDict [("result",
                              JDict [("title", JStr "Mona Lisa");
                                     ("confidence", JStr "high")])])))
            "key" (sample_world true [] 0)))
  = Ok {| title := ""; description := "<reply>"; confidence := Q0 |}.
Proof. vm_compute. reflexivity. Qed.

(** ** What no request does *)

Lemma read_only_try_except {A} (m : M A) h :
  read_only m -> (forall e, read_only (h e)) -> read_only (try_except m h).
Proof.
  intros Hm Hh w. unfold try_except. specialize (Hm w).
  destruct (m w) as [[a|e] w']; cbn in Hm; subst w'; [reflexivity | apply Hh].
Qed.

Lemma read_only_lift {A} (r : result A) : read_only (lift r).
Proof. intros w. reflexivity. Qed.

Lemma read_only_select_server : read_only select_server.
Proof. intros w. unfold select_server. now destruct (reachable w). Qed.

Lemma read_only_ObjectId s : read_only (ObjectId s).
Proof. intros w. unfold ObjectId. now destruct (is_valid_oid s). Qed.

Lemma read_only_requests_post url : read_only (requests_post url).
Proof. intros w. unfold requests_post. now destruct (overshoot w). Qed.

#[local] Hint Resolve read_only_lift read_only_select_server read_only_ObjectId
  read_only_requests_post : read_only.

Lemma read_only_find_one query : read_only (find_one query).
Proof.
  unfold find_one. apply read_only_bind; [auto with read_only|].
  intros _ w. reflexivity.
Qed.

Lemma read_only_get_all_analyses_request ty limit :
  read_only (get_all_analyses_request ty limit).
Proof.
  unfold get_all_analyses_request, get_all_analyses, get_collection, find_sort_limit.
  apply read_only_try_except; [|auto with read_only].
  repeat (apply read_only_bind; [auto with read_only | intros]);
    auto with read_only.
  intros w. reflexivity.
Qed.

Lemma read_only_get_analysis_by_id analysis_id :
  read_only (get_analysis_by_id analysis_id).
Proof.
  unfold get_analysis_by_id, get_collection.
  apply read_only_try_except; [|auto with read_only].
  repeat (apply read_only_bind;
          [auto using read_only_find_one with read_only | intros]).
  destruct a1; auto with read_only.
Qed.

Lemma read_only_search regex_i name :
  read_only (search_analyses_by_name regex_i name).
Proof.
  unfold search_analyses_by_name, get_collection, find_regex_sorted.
  apply read_only_try_except; [|auto with read_only].
  repeat (apply read_only_bind; [auto with read_only | intros]);
    auto with read_only.
  intros w. reflexivity.
Qed.

Lemma read_only_detect_artwork json_loads validate_str validate_float py_str url :
  read_only (detect_artwork json_loads validate_str validate_float py_str url).
Proof.
  unfold detect_artwork, getenv, response_json.
  apply read_only_try_except; [|auto with read_only].
  apply read_only_bind; [intros w; reflexivity | intros key].
  apply read_only_bind; [destruct (truthy_str key); auto with read_only | intros _].
  apply read_only_bind; [auto with read_only | intros [[ok status] body]].
  apply read_only_bind; [destruct ok; auto with read_only | intros _].
  apply read_only_bind; [destruct body; auto with read_only | intros reply].
  apply read_only_try_except; [|auto with read_only].
  apply read_only_parse_detection.
Qed.

Lemma update_first_identity query updated update_data ds :
  map identity_of (fst (update_first query (apply_update updated update_data) ds))
  = map identity_of ds.
Proof.
  induction ds as [|x rest IH]; [reflexivity|]. cbn [update_first].
  destruct (query x); [reflexivity|].
  destruct (update_first query (apply_update updated update_data) rest) as [rest' n].
  cbn in *. now rewrite IH.
Qed.

Lemma update_analysis_world analysis_id update_data w :
  files (snd (update_analysis analysis_id update_data w)) = files w
  /\ map identity_of (docs (snd (update_analysis analysis_id update_data w)))
     = map identity_of (docs w).
Proof.
  destruct (is_valid_oid analysis_id) eqn:Hv.
  - destruct (reachable w) eqn:Hup.
    + destruct (List.find (by_id (string_map lower_hex analysis_id)) (docs w))
        as [d|] eqn:Hfind.
      * rewrite (update_analysis_run _ update_data _ _ Hv Hup Hfind).
        split; [reflexivity | apply update_first_identity].
      * rewrite (update_analysis_unmatched _ update_data _ Hv Hup Hfind).
        split; reflexivity.
    + rewrite (update_analysis_store_down _ update_data _ Hv Hup). split; reflexivity.
  - rewrite (update_analysis_bad_id _ update_data _ Hv). split; reflexivity.
Qed.

Lemma upload_temp_image_world image_base64 w :
  docs (snd (upload_temp_image image_base64 w)) = docs w
  /\ forall name, is_Some (files w !! name) ->
       is_Some (files (snd (upload_temp_image image_base64 w)) !! name).
Proof.
  pose proof (upload_temp_image_runs image_base64 w) as Hrun.
  destruct (image_bytes_of image_base64) as [bytes|e]; cbv zeta in Hrun;
    rewrite Hrun; cbn [snd]; split; auto.
  intros name Hsome. cbn [files with_files].
  rewrite lookup_insert. case_decide; [eauto | exact Hsome].
Qed.

Section Sessions.
Variable timestamp_repr : datetime -> string.
Variable json_loads : string -> option json.
Variable validate_str : json -> option string.
Variable validate_float : json -> option Q.
Variable py_str : json -> string.
Variable regex_i : string -> result (string -> bool).

Local Abbreviation handle' :=
  (handle timestamp_repr json_loads validate_str validate_float py_str regex_i).

Lemma handle_keeps rq w :
  map identity_of (docs (snd (handle' rq w))) = map identity_of (docs w)
  /\ forall name, is_Some (files w !! name) ->
       is_Some (files (snd (handle' rq w)) !! name).
Proof.
  unfold handle, answer, answer_model, serve, serve_model.
  destruct rq as [s|a|ty limit|id|name|id upd| |url|file].
  - destruct (upload_temp_image_world s w) as [Hd Hf].
    destruct (upload_temp_image s w) as [r w']. cbn in *. now rewrite Hd.
  - cbn. auto.
  - pose proof (read_only_get_all_analyses_request ty limit w) as H.
    destruct (get_all_analyses_request ty limit w) as [r w']. cbn in *. now subst.
  - pose proof (read_only_get_analysis_by_id id w) as H.
    destruct (get_analysis_by_id id w) as [r w']. cbn in *. now subst.
  - pose proof (read_only_search regex_i name w) as H.
    destruct (search_analyses_by_name regex_i name w) as [r w']. cbn in *. now subst.
  - destruct (update_analysis_world id upd w) as [Hf Hd].
    destruct (update_analysis id upd w) as [r w']. cbn in *.
    rewrite Hf, Hd. auto.
  - cbn. auto.
  - pose proof (read_only_detect_artwork json_loads validate_str validate_float
                  py_str url w) as H.
    destruct (detect_artwork _ _ _ _ url w) as [r w']. cbn in *. now subst.
  - destruct (files w !! file); cbn; auto.
Qed.

(** Over any session the records that were stored stay where they are with
    their [_id], [image_name], [analysis_type], image reference and
    [created_at]: no request removes or reorders records or rewrites those
    fields; and no request removes a temp file. *)
Theorem sessions_keep_records_and_files (rqs : list request) (w : World) :
  exists added,
    map identity_of
      (docs (handle_all timestamp_repr json_loads validate_str validate_float
               py_str regex_i rqs w))
    = (map identity_of (docs w) ++ added)%list
  /\ forall name, is_Some (files w !! name) ->
       is_Some (files (handle_all timestamp_repr json_loads validate_str
                         validate_float py_str regex_i rqs w) !! name).
Proof.
  exists []. rewrite app_nil_r.
  revert w. induction rqs as [|rq rest IH]; intros w; [cbn; auto|].
  cbn [handle_all]. destruct (handle_keeps rq w) as [Hd Hf].
  destruct (IH (snd (handle' rq w))) as [Hd' Hf'].
  split; [now rewrite Hd', Hd | auto].
Qed.
End Sessions.

(** A session on the sample world: an upload, a failed POST, an update and
    a listing. *)
Example session_keeps_identity :
  map _id
    (docs (handle_all (fun _ => "0.0") loads_nothing only_str only_num repr_opaque
             literal_regex
             [PostUploadTempImage "YQ==";
              PostImageAnalysis (sample_request ["a"]);
              PutImageAnalysis "65a1b2c3d4e5f60718293a4d"
                {| up_descriptions := Some ["WAY OUT"]; up_metadata := None |};
              GetImageAnalyses None None]
             (sample_world true [starry_night; street_sign; mona_lisa] 0)))
  = ["65a1b2c3d4e5f60718293a4b"; "65a1b2c3d4e5f60718293a4d"; "65a1b2c3d4e5f60718293a4c"].
Proof. vm_compute. reflexivity. Qed.

(** ** More on List and Upload *)





(** A successful upload writes one file and nothing else: the file is named
    after the generated identifier with the fixed extension ".jpg" whatever
    the bytes are, every other file and every record is left as it was, and
    the answer gives the identifier and the URL of that file. *)
Theorem upload_writes_one_file (image_base64 : string) (image_bytes : list N)
    (w : World) :
  image_bytes_of image_base64 = Ok image_bytes ->
  exists w',
    upload_temp_image image_base64 w
    = (Ok {| u_image_url := TEMP_IMAGE_URL +:+ uuid_gen w (uuid_next w) +:+ ".jpg";
             u_image_id := uuid_gen w (uuid_next w) |}, w')
    /\ files w' !! (uuid_gen w (uuid_next w) +:+ ".jpg") = Some image_bytes
    /\ (forall name, name <> uuid_gen w (uuid_next w) +:+ ".jpg" ->
          files w' !! name = files w !! name)
    /\ docs w' = docs w
    /\ uuid_next w' = S (uuid_next w).
Proof.
  intros H. pose proof (upload_temp_image_runs image_base64 w) as Hrun.
  rewrite H in Hrun. cbv zeta in Hrun.
  eexists. split; [exact Hrun|]. cbn [files with_files docs uuid_next with_uuid_next].
  split; [apply lookup_insert_eq|]. split; [|split; reflexivity].
  intros name Hne. now apply lookup_insert_ne.
Qed.

Lemma upload_writes_one_file_witness :
  exists w',
    upload_temp_image "iVBORw==" (sample_world true [starry_night] 0)
    = (Ok {| u_image_url :=
               "http://localhost:8000/temp_images/3f2b8c1e-0000-4000-8000-000000000000.jpg";
             u_image_id := "3f2b8c1e-0000-4000-8000-000000000000" |}, w')
    /\ files w' !! "3f2b8c1e-0000-4000-8000-000000000000.jpg" = Some [137; 80; 78; 71]
    /\ docs w' = [starry_night].
Proof.
  destruct (upload_writes_one_file "iVBORw==" [137; 80; 78; 71]
              (sample_world true [starry_night] 0) eq_refl)
    as (w' & Hrun & Hfile & _ & Hdocs & _).
  exists w'. split; [exact Hrun|]. split; [exact Hfile | exact Hdocs].
Defined.
